(** * Emergency Response Optimization System: allocation engine

    A shallow embedding of the dispatch endpoint ([backend.py]) and of the
    capacity-weighted allocator ([optimize_allocation.py]), with the
    properties of the specification stated and settled against it.

    Modelling conventions.
    - Python [float] values are idealised: real numbers ([R]) in the
      dispatcher, where the haversine formula needs [sin], [cos] and
      [atan2], and exact rationals ([Q]) in the allocator, where only
      [+], [*], comparison and [round] occur.  IEEE rounding, [inf] and
      [nan] are outside the model.
    - The builtins [float(str)] and [int(str)] are parameters of the
      development; every theorem holds for any parser.
    - Exceptions are values of [pyexn]; a function that may raise returns
      a [result]. *)

From Stdlib Require Import Ascii String ZArith QArith Qabs Qround.
From Stdlib Require Import Reals Lra Lia Psatz.
From stdpp Require Import list strings.

Set Default Proof Using "Type".

(** ** Exceptions and results *)

Inductive pyexn : Type :=
| TypeError
| ValueError
| KeyError
| IndexError.

Inductive result (A : Type) : Type :=
| Ok (a : A)
| Raise (e : pyexn).

Arguments Ok {A} a.
Arguments Raise {A} e.

Definition bind {A B : Type} (r : result A) (k : A -> result B) : result B :=
  match r with
  | Ok a => k a
  | Raise e => Raise e
  end.

Notation "'let?' x ':=' r 'in' k" := (bind r (fun x => k))
  (at level 10, x name, r at level 100, k at level 200).

(** ** Python string helpers: [str.strip] and [str.lower] (ASCII) *)

Module PyStr.

(** Characters removed by [str.strip()] within ASCII: TAB, LF, VT, FF, CR,
    FS, GS, RS, US and the space. *)
Definition isspace (c : ascii) : bool :=
  let n := nat_of_ascii c in
  ((9 <=? n) && (n <=? 13)) || ((28 <=? n) && (n <=? 32)).

Fixpoint lstrip (s : string) : string :=
  match s with
  | EmptyString => EmptyString
  | String c s' => if isspace c then lstrip s' else s
  end.

Fixpoint rstrip (s : string) : string :=
  match s with
  | EmptyString => EmptyString
  | String c s' =>
      match rstrip s' with
      | EmptyString => if isspace c then EmptyString else String c EmptyString
      | t => String c t
      end
  end.

Definition strip (s : string) : string := rstrip (lstrip s).

Definition lower_char (c : ascii) : ascii :=
  let n := nat_of_ascii c in
  if (65 <=? n) && (n <=? 90) then ascii_of_nat (n + 32) else c.

Fixpoint lower (s : string) : string :=
  match s with
  | EmptyString => EmptyString
  | String c s' => String (lower_char c) (lower s')
  end.

(** [s.strip().lower()], the normalisation applied to type and region
    labels throughout the sources. *)
Definition normalize (s : string) : string := lower (strip s).

End PyStr.

(** ** backend.py *)

Module Backend.

Local Open Scope R_scope.

(** *** distance_km *)

Definition radians (x : R) : R := x * (PI / 180).

(** [math.sqrt]: raises [ValueError] on a negative argument. *)
Definition py_sqrt (x : R) : result R :=
  if Rlt_dec x 0 then Raise ValueError else Ok (sqrt x).

(** [math.atan2 y x]: the angle of the point [(x, y)], in (-PI, PI]. *)
Definition atan2 (y x : R) : R :=
  if Rlt_dec 0 x then atan (y / x)
  else if Rlt_dec x 0 then
    if Rle_dec 0 y then atan (y / x) + PI else atan (y / x) - PI
  else if Rlt_dec 0 y then PI / 2
  else if Rlt_dec y 0 then - (PI / 2)
  else 0.

(** The haversine term [a] of the source. *)
Definition hav_a (lat1 lon1 lat2 lon2 : R) : R :=
  let dlat := radians (lat2 - lat1) in
  let dlon := radians (lon2 - lon1) in
  sin (dlat / 2) ^ 2 +
  cos (radians lat1) * cos (radians lat2) * sin (dlon / 2) ^ 2.

Definition distance_km (lat1 lon1 lat2 lon2 : R) : result R :=
  let R_earth := 6371 in
  let a := hav_a lat1 lon1 lat2 lon2 in
  let? sa := py_sqrt a in
  let? sb := py_sqrt (1 - a) in
  let c := 2 * atan2 sa sb in
  Ok (R_earth * c).

(** The number [distance_km] computes when no square root fails. *)
Definition haversine (lat1 lon1 lat2 lon2 : R) : R :=
  let a := hav_a lat1 lon1 lat2 lon2 in
  6371 * (2 * atan2 (sqrt a) (sqrt (1 - a))).

(** *** The request body

    [request.get_json(force=True)] yields an arbitrary JSON document;
    the handler reads its ["type"] and ["location"] entries. *)

#[local] Unset Elimination Schemes.
Inductive json : Type :=
| JNull
| JBool (b : bool)
| JNum (x : R)
| JStr (s : string)
| JList (l : list json)
| JObj (kvs : list (string * json)).
#[local] Set Elimination Schemes.

(** [r_type] is [str(data.get("type", ""))]; [r_location] is
    [data.get("location")], [JNull] (Python's [None]) when absent. *)
Record request : Type := {
  r_type : string;
  r_location : json
}.

(** Truth value of a Python object, as tested by [not loc]. *)
Definition truthy (j : json) : bool :=
  match j with
  | JNull => false
  | JBool b => b
  | JNum x => if Req_dec_T x 0 then false else true
  | JStr s => negb (String.eqb s EmptyString)
  | JList l => match l with [] => false | _ => true end
  | JObj kvs => match kvs with [] => false | _ => true end
  end.

(** [len(loc)]: [None], booleans and numbers have no length. *)
Definition py_len (j : json) : result nat :=
  match j with
  | JStr s => Ok (String.length s)
  | JList l => Ok (List.length l)
  | JObj kvs => Ok (List.length kvs)
  | _ => Raise TypeError
  end.

(** [loc[i]] for a non-negative integer index [i]; the keys of a JSON
    object are strings, so indexing one with an integer is a
    [KeyError]. *)
Definition py_getitem (j : json) (i : nat) : result json :=
  match j with
  | JStr s =>
      match String.get i s with
      | Some c => Ok (JStr (String c EmptyString))
      | None => Raise IndexError
      end
  | JList l =>
      match nth_error l i with
      | Some x => Ok x
      | None => Raise IndexError
      end
  | JObj _ => Raise KeyError
  | _ => Raise TypeError
  end.

(** A row of the [vehicles] table created by [init_db.py]. *)
Record vehicle : Type := {
  v_id : string;
  v_type : string;
  v_lat : R;
  v_lon : R;
  v_status : string;
  v_station_id : string
}.

Definition set_status (st : string) (v : vehicle) : vehicle :=
  {| v_id := v_id v; v_type := v_type v; v_lat := v_lat v;
     v_lon := v_lon v; v_status := st; v_station_id := v_station_id v |}.

(** What the handler returns: a JSON error with its HTTP status, an
    exception that escapes the handler, or the assignment. *)
Inductive response : Type :=
| Error400 (msg : string)
| Error500 (msg : string)
| Unhandled (e : pyexn)
| Assigned (unit : string) (from to : R * R).

Section WithFloat.

(** [float(s)] on a string: [None] stands for [ValueError]. *)
Variable float_of_string : string -> option R.

(** [float(x)] on a JSON value. *)
Definition py_float (j : json) : result R :=
  match j with
  | JNum x => Ok x
  | JBool b => Ok (if b then 1 else 0)
  | JStr s =>
      match float_of_string s with
      | Some x => Ok x
      | None => Raise ValueError
      end
  | _ => Raise TypeError
  end.

(** [SELECT * FROM vehicles WHERE type = ? AND status = 'available'],
    rows in table order. *)
Definition select_available (db : list vehicle) (req_type : string)
  : list vehicle :=
  List.filter
    (fun v => String.eqb (v_type v) req_type
              && String.eqb (v_status v) "available")
    db.

(** [UPDATE vehicles SET status = 'busy' WHERE id = ?]. *)
Definition update_busy (db : list vehicle) (uid : string) : list vehicle :=
  List.map
    (fun v => if String.eqb (v_id v) uid then set_status "busy" v else v)
    db.

(** The loop that keeps the closest candidate: the state is
    [(best_unit, min_dist)], with [min_dist = None] for
    [float('inf')]. *)
Definition closest_step (lat lon : R)
    (acc : result (option vehicle * option R)) (v : vehicle)
  : result (option vehicle * option R) :=
  let? st := acc in
  let? d := distance_km lat lon (v_lat v) (v_lon v) in
  let '(best_unit, min_dist) := st in
  match min_dist with
  | None => Ok (Some v, Some d)
  | Some m => if Rlt_dec d m then Ok (Some v, Some d) else Ok st
  end.

Definition closest (lat lon : R) (candidates : list vehicle)
  : result (option vehicle * option R) :=
  fold_left (closest_step lat lon) candidates (Ok (None, None)).

(** [lat, lon = float(loc[0]), float(loc[1])]. *)
Definition parse_location (loc : json) : result (R * R) :=
  let? x0 := py_getitem loc 0 in
  let? lat := py_float x0 in
  let? x1 := py_getitem loc 1 in
  let? lon := py_float x1 in
  Ok (lat, lon).

Definition request_unit (db : list vehicle) (data : request)
  : response * list vehicle :=
  let req_type := PyStr.normalize (r_type data) in
  let loc := r_location data in
  if negb (truthy loc) then (Error400 "Invalid location", db) else
  match py_len loc with
  | Raise e => (Unhandled e, db)
  | Ok n =>
    if negb (Nat.eqb n 2) then (Error400 "Invalid location", db) else
    match parse_location loc with
    | Raise TypeError | Raise ValueError =>
        (Error400 "Location must be numeric [lat, lon]", db)
    | Raise e => (Unhandled e, db)
    | Ok (lat, lon) =>
      let candidates := select_available db req_type in
      match candidates with
      | [] => (Error400 "No available unit", db)
      | _ =>
        match closest lat lon candidates with
        | Raise e => (Unhandled e, db)
        | Ok (None, _) => (Error500 "Error finding closest unit", db)
        | Ok (Some best_unit, _) =>
            (Assigned (v_id best_unit)
                      (v_lat best_unit, v_lon best_unit) (lat, lon),
             update_busy db (v_id best_unit))
        end
      end
    end
  end.

(** [reset_vehicles]: [UPDATE vehicles SET status = 'available']. *)
Definition reset_vehicles (db : list vehicle) : list vehicle :=
  List.map (set_status "available") db.

End WithFloat.

(** [b], found at position [i] of [l], is the first of the rows of [l]
    closest to [(lat, lon)]. *)
Definition first_closest (lat lon : R) (l : list vehicle) (i : nat)
    (b : vehicle) : Prop :=
  l !! i = Some b /\
  forall (j : nat) (c : vehicle), l !! j = Some c ->
    haversine lat lon (v_lat b) (v_lon b)
      <= haversine lat lon (v_lat c) (v_lon c) /\
    ((j < i)%nat ->
     haversine lat lon (v_lat b) (v_lon b)
       < haversine lat lon (v_lat c) (v_lon c)).

(** Invariant of the loop of [closest]: nothing seen and nothing kept,
    or the kept row is the first closest of the rows seen and
    [min_dist] is its distance. *)
Definition closest_inv (lat lon : R) (seen : list vehicle)
    (st : option vehicle * option R) : Prop :=
  match st with
  | (None, None) => seen = []
  | (Some b, Some m) =>
      m = haversine lat lon (v_lat b) (v_lon b) /\
      exists i, first_closest lat lon seen i b
  | _ => False
  end.

(** A location that is absent, or a list that is not a pair of values
    [float] accepts. *)
Inductive malformed_location (float_of_string : string -> option R)
  : json -> Prop :=
| loc_absent : malformed_location float_of_string JNull
| loc_wrong_length (l : list json) :
    List.length l <> 2%nat -> malformed_location float_of_string (JList l)
| loc_first_not_numeric (x y : json) (e : pyexn) :
    py_float float_of_string x = Raise e ->
    malformed_location float_of_string (JList [x; y])
| loc_second_not_numeric (x y : json) (e : pyexn) :
    py_float float_of_string y = Raise e ->
    malformed_location float_of_string (JList [x; y]).

(** *** The error kinds of the specification

    The specification names the failures of [requestUnit]; the handler
    tells them apart by the text of the error it returns. *)

Inductive error_kind : Type :=
| InvalidRequestError
| NoAvailableUnitError.

Definition spec_known_types : list string :=
  ["ambulance"; "police"; "fire"]%string.

Definition spec_error_kind (r : response) : option error_kind :=
  match r with
  | Error400 msg =>
      if String.eqb msg "Invalid location" then Some InvalidRequestError
      else if String.eqb msg "Location must be numeric [lat, lon]"
           then Some InvalidRequestError
      else if String.eqb msg "No available unit"
           then Some NoAvailableUnitError
      else None
  | _ => None
  end.

(** *** A small table for the worked examples *)

Definition row (i t : string) (la lo : R) (st sid : string) : vehicle :=
  {| v_id := i; v_type := t; v_lat := la; v_lon := lo; v_status := st;
     v_station_id := sid |}.

Definition demo_db : list vehicle :=
  [ row "A1" "ambulance" 1 1 "busy" "S1";
    row "A2" "ambulance" 0 0 "available" "S1";
    row "A3" "ambulance" 0 0 "available" "S2";
    row "P1" "police" 0 0 "busy" "S2" ]%string.

Definition demo_request (t : string) : request :=
  {| r_type := t; r_location := JList [JNum 0; JNum 0] |}.

Definition no_float : string -> option R := fun _ => None.

End Backend.

(** ** optimize_allocation.py *)

Module Allocation.

(** *** Rows

    The rows come from [csv.DictReader]: every value is text.  A field
    read with [row[key]] is a plain field; a field read with
    [row.get(key, default)] is an [option], [None] when the column is
    absent.  The ["lat"] and ["lon"] of a station are read inside a [try]
    that swallows every exception, so they are options as well. *)

(** The value under ["lat"] or ["lon"] of a vehicle: the text read from
    the file, or the float stored by the allocator. *)
Inductive cell : Type :=
| Text (s : string)
| Float (q : Q).

Record vehicle : Type := {
  v_id : string;
  v_type : string;
  v_lat : cell;
  v_lon : cell;
  v_status : string;
  v_station_id : option string
}.

Record station : Type := {
  s_id : string;
  s_region : option string;
  s_lat : option string;
  s_lon : option string;
  s_capacity_ambulance : option string;
  s_capacity_police : option string;
  s_capacity_fire : option string
}.

Record factor : Type := {
  f_id : string;
  f_region : option string;
  f_expected_call_volume : option string
}.

Definition set_lat (c : cell) (v : vehicle) : vehicle :=
  {| v_id := v_id v; v_type := v_type v; v_lat := c; v_lon := v_lon v;
     v_status := v_status v; v_station_id := v_station_id v |}.

Definition set_lon (c : cell) (v : vehicle) : vehicle :=
  {| v_id := v_id v; v_type := v_type v; v_lat := v_lat v; v_lon := c;
     v_status := v_status v; v_station_id := v_station_id v |}.

Definition set_station_id (sid : string) (v : vehicle) : vehicle :=
  {| v_id := v_id v; v_type := v_type v; v_lat := v_lat v;
     v_lon := v_lon v; v_status := v_status v; v_station_id := Some sid |}.

(** *** Dictionaries keyed by strings

    A Python [dict] keeps its keys in insertion order, and assigning to
    a key already present keeps the key where it is. *)

Definition dict (V : Type) : Type := list (string * V).

Fixpoint dict_get {V : Type} (d : dict V) (k : string) : option V :=
  match d with
  | [] => None
  | (k', x) :: d' => if String.eqb k' k then Some x else dict_get d' k
  end.

Fixpoint dict_set {V : Type} (d : dict V) (k : string) (x : V) : dict V :=
  match d with
  | [] => [(k, x)]
  | (k', x') :: d' =>
      if String.eqb k' k then (k', x) :: d' else (k', x') :: dict_set d' k x
  end.

(** [enumerate(l)]. *)
Fixpoint enumerate_from {A : Type} (i : nat) (l : list A) : list (nat * A) :=
  match l with
  | [] => []
  | x :: l' => (i, x) :: enumerate_from (S i) l'
  end.

Definition enumerate {A : Type} (l : list A) : list (nat * A) :=
  enumerate_from 0 l.

(** Position of [k] in a list of positions. *)
Fixpoint index_of (k : nat) (l : list nat) : option nat :=
  match l with
  | [] => None
  | k' :: l' =>
      if Nat.eqb k' k then Some 0%nat else option_map S (index_of k l')
  end.

(** The positions, from [i] on, of the vehicles whose normalised type is
    [t]: what the grouping loop appends to the list of [t]. *)
Fixpoint type_indices_from (i : nat) (vehicles : list vehicle) (t : string)
  : list nat :=
  match vehicles with
  | [] => []
  | v :: rest =>
      if String.eqb (PyStr.normalize (v_type v)) t
      then i :: type_indices_from (S i) rest t
      else type_indices_from (S i) rest t
  end.

Definition type_indices (vehicles : list vehicle) (t : string) : list nat :=
  type_indices_from 0 vehicles t.

Definition known_types : list string :=
  ["ambulance"; "police"; "fire"]%string.

(** *** Numbers *)

Definition Qlt_bool (x y : Q) : bool := negb (Qle_bool y x).

(** [round(x)] on a float: the nearest integer, a tie going to the even
    neighbour. *)
Definition py_round (x : Q) : Z :=
  let f := Qfloor x in
  match Qcompare (x - inject_Z f) (1 # 2) with
  | Lt => f
  | Gt => (f + 1)%Z
  | Eq => if Z.even f then f else (f + 1)%Z
  end.

Section WithParsers.

(** [float(s)] and [int(s)] on a string; [None] stands for the
    exception they raise on text that is not a number. *)
Variable float_of_string : string -> option Q.
Variable int_of_string : string -> option Z.

(** *** choose_factor_scenario *)

(** [safe_float(r.get("expected_call_volume", 0.0))]. *)
Definition safe_float (x : option string) : Q :=
  match x with
  | None => 0
  | Some s =>
      match float_of_string s with
      | Some q => q
      | None => 0
      end
  end.

(** [max(seq, key=key)]: the first element whose key is largest;
    [ValueError] on an empty sequence. *)
Definition py_max {A : Type} (key : A -> Q) (l : list A) : result A :=
  match l with
  | [] => Raise ValueError
  | x :: l' =>
      Ok (fold_left
            (fun best r => if Qlt_bool (key best) (key r) then r else best)
            l' x)
  end.

(** The loop [for row in factors: if str(row["id"]) == str(scenario_id):
    return row]. *)
Fixpoint find_scenario (factors : list factor) (scenario_id : string)
  : option factor :=
  match factors with
  | [] => None
  | row :: rest =>
      if String.eqb (f_id row) scenario_id then Some row
      else find_scenario rest scenario_id
  end.

Definition choose_factor_scenario
    (factors : list factor) (scenario_id : option string)
  : result factor :=
  let fallback :=
    py_max (fun r => safe_float (f_expected_call_volume r)) factors in
  match scenario_id with
  | Some sid =>
      match find_scenario factors sid with
      | Some row => Ok row
      | None => fallback
      end
  | None => fallback
  end.

(** *** build_station_lookup *)

Definition region_of (r : option string) : string :=
  PyStr.normalize (match r with Some s => s | None => "" end).

Definition setdefault_append (region_map : dict (list string))
    (region sid : string) : dict (list string) :=
  match dict_get region_map region with
  | Some ids => dict_set region_map region (ids ++ [sid])
  | None => dict_set region_map region [sid]
  end.

Definition build_station_lookup (stations : list station)
  : dict station * dict (list string) :=
  fold_left
    (fun '(station_lookup, region_map) s =>
       let sid := s_id s in
       (dict_set station_lookup sid s,
        setdefault_append region_map (region_of (s_region s)) sid))
    stations ([], []).

(** *** compute_station_weights *)

Definition cap_field (vehicle_type : string) : station -> option string :=
  if String.eqb vehicle_type "ambulance" then s_capacity_ambulance
  else if String.eqb vehicle_type "police" then s_capacity_police
  else s_capacity_fire.

(** [int(s.get(cap_field, "0"))], 0 when [int] raises. *)
Definition capacity (vehicle_type : string) (s : station) : Z :=
  match cap_field vehicle_type s with
  | None => 0
  | Some txt =>
      match int_of_string txt with
      | Some c => c
      | None => 0
      end
  end.

Definition weights_step (region_hot : string) (hot_multiplier : Q)
    (vehicle_type : string) (weights : dict Z) (s : station) : dict Z :=
  let base_multiplier := 1%Q in
  let sid := s_id s in
  let region := region_of (s_region s) in
  let cap := capacity vehicle_type s in
  if (cap <=? 0)%Z then weights
  else
    let w := cap in
    let w :=
      if String.eqb region region_hot
      then py_round (inject_Z w * hot_multiplier)
      else py_round (inject_Z w * base_multiplier) in
    let w := if (w <? 0)%Z then 0%Z else w in
    if (0 <? w)%Z then dict_set weights sid w else weights.

Definition compute_station_weights (stations : list station)
    (factor_row : factor) (vehicle_type : string) : dict Z :=
  let region_hot := region_of (f_region factor_row) in
  let expected_volume := safe_float (f_expected_call_volume factor_row) in
  let hot_multiplier := (1 + expected_volume)%Q in
  fold_left (weights_step region_hot hot_multiplier vehicle_type)
            stations [].

(** *** assign_vehicles_to_stations *)

(** The vehicle dictionaries are mutated in place and shared between
    [vehicles] and the per-type lists: a vehicle is identified by its
    position in [vehicles], and the per-type lists hold positions. *)

Definition dict_append (d : dict (list nat)) (k : string) (i : nat)
  : dict (list nat) :=
  match dict_get d k with
  | Some l => dict_set d k (l ++ [i])
  | None => d
  end.

Definition vehicles_by_type (vehicles : list vehicle) : dict (list nat) :=
  fold_left
    (fun by_type '(i, v) =>
       let vtype := PyStr.normalize (v_type v) in
       dict_append by_type vtype i)
    (enumerate vehicles)
    [("ambulance", []); ("police", []); ("fire", [])].

(** The flat weighted list of station ids. *)
Definition weighted_station_ids (weights : dict Z) : list string :=
  fold_left
    (fun acc '(sid, w) => acc ++ repeat sid (Z.to_nat w))
    weights [].

(** [float(st[key])]: [None] when the key is missing or the text is not
    a number; the [except] clause swallows the exception either way. *)
Definition parse_cell (x : option string) : option Q :=
  match x with
  | Some s => float_of_string s
  | None => None
  end.

(** The body of the [try]: the second assignment is not reached when
    the first conversion raises, and the first one stays when the
    second conversion raises. *)
Definition move_to (st : station) (v : vehicle) : vehicle :=
  match parse_cell (s_lat st) with
  | None => v
  | Some la =>
      let v1 := set_lat (Float la) v in
      match parse_cell (s_lon st) with
      | None => v1
      | Some lo => set_lon (Float lo) v1
      end
  end.

Definition assign_one (station_lookup : dict station)
    (cycle : list string) (fleet : list vehicle) (iv : nat * nat)
  : list vehicle :=
  let '(i, k) := iv in
  let n := List.length cycle in
  match nth_error cycle (i mod n) with
  | None => fleet
  | Some sid =>
      match dict_get station_lookup sid with
      | None => fleet
      | Some st => alter (fun v => set_station_id sid (move_to st v)) k fleet
      end
  end.

Definition assign_type (stations : list station) (factor_row : factor)
    (station_lookup : dict station)
    (fleet : list vehicle) (entry : string * list nat) : list vehicle :=
  let '(vtype, vlist) := entry in
  match vlist with
  | [] => fleet
  | _ =>
    let weights := compute_station_weights stations factor_row vtype in
    match weights with
    | [] => fleet
    | _ =>
      let cycle := weighted_station_ids weights in
      match cycle with
      | [] => fleet
      | _ => fold_left (assign_one station_lookup cycle)
                       (enumerate vlist) fleet
      end
    end
  end.

Definition assign_vehicles_to_stations (vehicles : list vehicle)
    (stations : list station) (factor_row : factor) : list vehicle :=
  let station_lookup := fst (build_station_lookup stations) in
  fold_left (assign_type stations factor_row station_lookup)
            (vehicles_by_type vehicles) vehicles.

(** *** Descriptions used in the proofs *)

(** The weight one station contributes, [None] when the loop of
    [compute_station_weights] passes over it. *)
Definition station_weight (region_hot : string) (hot_multiplier : Q)
    (vehicle_type : string) (s : station) : option Z :=
  let cap := capacity vehicle_type s in
  if (cap <=? 0)%Z then None
  else
    let w :=
      if String.eqb (region_of (s_region s)) region_hot
      then py_round (inject_Z cap * hot_multiplier)
      else py_round (inject_Z cap * 1) in
    let w := if (w <? 0)%Z then 0%Z else w in
    if (0 <? w)%Z then Some w else None.

Definition factor_weight (factor_row : factor) (vehicle_type : string)
    (s : station) : option Z :=
  station_weight (region_of (f_region factor_row))
    (1 + safe_float (f_expected_call_volume factor_row))
    vehicle_type s.

(** What one round of the inner loop does to the vehicle it visits
    as the [i]-th of its type. *)
Definition rank_action (station_lookup : dict station)
    (cycle : list string) (i : nat) (v : vehicle) : vehicle :=
  match nth_error cycle (i mod List.length cycle) with
  | None => v
  | Some sid =>
      match dict_get station_lookup sid with
      | None => v
      | Some st => set_station_id sid (move_to st v)
      end
  end.

(** What the pass for [vtype] does to the vehicle at position [k]. *)
Definition type_action (stations : list station) (factor_row : factor)
    (vtype : string) (vlist : list nat) (k : nat) (v : vehicle)
  : vehicle :=
  match compute_station_weights stations factor_row vtype with
  | [] => v
  | weights =>
      match weighted_station_ids weights with
      | [] => v
      | cycle =>
          match index_of k vlist with
          | Some i =>
              rank_action (fst (build_station_lookup stations)) cycle i v
          | None => v
          end
      end
  end.

(** The pass applied to the vehicle at position [k]. *)
Definition visit (vehicles : list vehicle) (stations : list station)
    (factor_row : factor) (k : nat) (v : vehicle) : vehicle :=
  if bool_decide (PyStr.normalize (v_type v) ∈ known_types)
  then type_action stations factor_row (PyStr.normalize (v_type v))
         (type_indices vehicles (PyStr.normalize (v_type v))) k v
  else v.

(** *** The weight rule in the words of the specification

    [same_region] is the comparison of region labels; the
    specification asks for a case-insensitive exact match. *)

Inductive vehicle_kind : Type :=
| Ambulance
| Police
| Fire.

Definition kind_name (t : vehicle_kind) : string :=
  match t with
  | Ambulance => "ambulance"
  | Police => "police"
  | Fire => "fire"
  end.

Definition capacity_text (t : vehicle_kind) (s : station)
  : option string :=
  match t with
  | Ambulance => s_capacity_ambulance s
  | Police => s_capacity_police s
  | Fire => s_capacity_fire s
  end.

Definition label (r : option string) : string :=
  match r with Some s => s | None => "" end.

Definition spec_weight (same_region : string -> string -> bool)
    (factor_row : factor) (t : vehicle_kind) (s : station) : option Z :=
  match capacity_text t s with
  | None => None
  | Some txt =>
      match int_of_string txt with
      | None => None
      | Some c =>
          if (c =? 0)%Z then None
          else
            let volume := safe_float (f_expected_call_volume factor_row) in
            let w :=
              if same_region (label (s_region s))
                             (label (f_region factor_row))
              then py_round (inject_Z c * (1 + volume))
              else c in
            let w := Z.max 0 w in
            if (w =? 0)%Z then None else Some w
      end
  end.

Definition spec_station_weights (same_region : string -> string -> bool)
    (stations : list station) (factor_row : factor) (t : vehicle_kind)
  : dict Z :=
  omap (fun s => option_map (fun w => (s_id s, w))
                   (spec_weight same_region factor_row t s))
       stations.

End WithParsers.

(** Region labels compared without regard to case. *)
Definition case_insensitive_eq (a b : string) : bool :=
  String.eqb (PyStr.lower a) (PyStr.lower b).

(** Region labels compared without regard to case or to surrounding
    white space. *)
Definition trimmed_case_insensitive_eq (a b : string) : bool :=
  String.eqb (PyStr.normalize a) (PyStr.normalize b).

Definition set_status (st : string) (v : vehicle) : vehicle :=
  {| v_id := v_id v; v_type := v_type v; v_lat := v_lat v;
     v_lon := v_lon v; v_status := st; v_station_id := v_station_id v |}.

(** The fleet with the status of the vehicle at each position [k]
    replaced by [f k]. *)
Fixpoint restatus_from (i : nat) (f : nat -> string)
    (vehicles : list vehicle) : list vehicle :=
  match vehicles with
  | [] => []
  | v :: rest => set_status (f i) v :: restatus_from (S i) f rest
  end.

Definition restatus (f : nat -> string) (vehicles : list vehicle)
  : list vehicle :=
  restatus_from 0 f vehicles.

(** [b], found at position [i] of [l], is the first of the elements of
    [l] whose key is largest. *)
Definition first_largest {A : Type} (key : A -> Q) (l : list A) (i : nat)
    (b : A) : Prop :=
  l !! i = Some b /\
  forall (j : nat) (r : A), l !! j = Some r ->
    (key r <= key b)%Q /\ ((j < i)%nat -> (key r < key b)%Q).

(** The vehicle [v] moved to the position [(la, lo)] of the station
    [sid]. *)
Definition stationed (v : vehicle) (la lo : Q) (sid : string) : vehicle :=
  {| v_id := v_id v; v_type := v_type v; v_lat := Float la;
     v_lon := Float lo; v_status := v_status v;
     v_station_id := Some sid |}.

End Allocation.

(** ** Data of the worked examples *)

Module Demo.

Import Allocation.

Definition unit_at_origin (i t st : string) : vehicle :=
  {| v_id := i; v_type := t; v_lat := Text "0"; v_lon := Text "0";
     v_status := st; v_station_id := None |}.

Definition hot_station : station :=
  {| s_id := "S1"; s_region := Some "North";
     s_lat := Some "10.5"; s_lon := Some "20";
     s_capacity_ambulance := Some "3"; s_capacity_police := Some "0";
     s_capacity_fire := None |}.

Definition other_station : station :=
  {| s_id := "S2"; s_region := Some "south";
     s_lat := Some "-1.25"; s_lon := Some "2";
     s_capacity_ambulance := Some "3"; s_capacity_police := Some "1";
     s_capacity_fire := None |}.

(** A station whose region label carries a leading space. *)
Definition padded_station : station :=
  {| s_id := "S3"; s_region := Some " North";
     s_lat := Some "1"; s_lon := Some "1";
     s_capacity_ambulance := Some "2"; s_capacity_police := None;
     s_capacity_fire := None |}.

Definition stations : list station := [hot_station; other_station].

Definition scenario : factor :=
  {| f_id := "1"; f_region := Some "north";
     f_expected_call_volume := Some "1.0" |}.

Definition calm_scenario : factor :=
  {| f_id := "2"; f_region := Some "south";
     f_expected_call_volume := Some "0.5" |}.

Definition fleet : list vehicle :=
  [ unit_at_origin "A1" "ambulance" "busy";
    unit_at_origin "A2" "Ambulance " "available";
    unit_at_origin "A3" "ambulance" "available";
    unit_at_origin "A4" "ambulance" "busy";
    unit_at_origin "A5" "ambulance" "available";
    unit_at_origin "A6" "ambulance" "available";
    unit_at_origin "A7" "ambulance" "available";
    unit_at_origin "A8" "ambulance" "available";
    unit_at_origin "A9" "ambulance" "available";
    unit_at_origin "T1" "tank" "available" ].

End Demo.

(** ** Plain decimal literals

    A parser for the fragment of [int(s)] and [float(s)] used in the
    worked examples: optional surrounding white space, an optional sign,
    decimal digits and, for [float], an optional fractional part. *)

Module Decimal.

Definition digit (c : ascii) : option Z :=
  let n := nat_of_ascii c in
  if (48 <=? n) && (n <=? 57) then Some (Z.of_nat (n - 48)) else None.

Fixpoint digits (acc : Z) (s : string) : option Z :=
  match s with
  | EmptyString => Some acc
  | String c s' =>
      match digit c with
      | Some d => digits (10 * acc + d) s'
      | None => None
      end
  end.

Definition unsigned (s : string) : option Z :=
  match s with
  | EmptyString => None
  | _ => digits 0 s
  end.

Definition signed {A : Type} (neg : A -> A) (body : string -> option A)
    (s : string) : option A :=
  match s with
  | String "-" s' => option_map neg (body s')
  | String "+" s' => body s'
  | _ => body s
  end.

Definition int_of_string (s : string) : option Z :=
  signed Z.opp unsigned (PyStr.strip s).

Fixpoint split_dot (s : string) : string * option string :=
  match s with
  | EmptyString => (EmptyString, None)
  | String "." s' => (EmptyString, Some s')
  | String c s' => let '(a, b) := split_dot s' in (String c a, b)
  end.

Definition unsigned_float (s : string) : option Q :=
  match split_dot s with
  | (ip, None) => option_map inject_Z (unsigned ip)
  | (ip, Some fp) =>
      match ip, fp with
      | EmptyString, EmptyString => None
      | _, _ =>
          match digits 0 ip, digits 0 fp with
          | Some a, Some b =>
              let scale := (10 ^ Z.of_nat (String.length fp))%Z in
              Some (Qred (Qmake (a * scale + b) (Z.to_pos scale)))
          | _, _ => None
          end
      end
  end.

Definition float_of_string (s : string) : option Q :=
  signed Qopp unsigned_float (PyStr.strip s).

End Decimal.

(** ** Trimmed strings *)

Module Trimmed.

(** A string is trimmed on the left when it is empty or starts with a
    character that is not white space. *)
Definition left_trimmed (s : string) : Prop :=
  match s with
  | EmptyString => True
  | String c _ => PyStr.isspace c = false
  end.

End Trimmed.

(** ** Requests served one after the other *)

Module Dispatch.

Import Backend.

Section WithFloat.

Variable float_of_string : string -> option R.

(** The server handling the requests [reqs] in turn, each on the table
    left by the one before: the responses and the final table. *)
Fixpoint serve (db : list vehicle) (reqs : list request)
  : list response * list vehicle :=
  match reqs with
  | [] => ([], db)
  | data :: rest =>
      let '(r, db1) := request_unit float_of_string db data in
      let '(rs, db2) := serve db1 rest in
      (r :: rs, db2)
  end.

End WithFloat.

(** Number of rows whose status is ['available']. *)
Definition available_count (db : list vehicle) : nat :=
  List.length
    (List.filter (fun v => String.eqb (v_status v) "available") db).

(** Every row whose id is [u] is busy. *)
Definition all_busy (db : list vehicle) (u : string) : Prop :=
  forall v, In v db -> v_id v = u -> v_status v = "busy".

End Dispatch.

(** ** Counting the result of the allocator *)

Module Tally.

Import Allocation.

(** Whether the vehicle at position [k] of [fleet] is based at [sid]. *)
Definition based_at (fleet : list vehicle) (sid : string) (k : nat) : bool :=
  match fleet !! k with
  | Some v =>
      match v_station_id v with
      | Some s => String.eqb s sid
      | None => false
      end
  | None => false
  end.

(** Number of the vehicles at the positions [units] based at [sid]. *)
Definition stationed_at (fleet : list vehicle) (units : list nat)
    (sid : string) : nat :=
  List.length (List.filter (based_at fleet sid) units).

(** Whether the [i]-th place of the round robin over [cycle] is [sid]. *)
Definition picks (cycle : list string) (sid : string) (i : nat) : bool :=
  match nth_error cycle (i mod List.length cycle) with
  | Some s => String.eqb s sid
  | None => false
  end.

End Tally.

(** ** optimize_allocation.py: main *)

Module Main.

Import Allocation.

(** A row of [vehicles.csv] as [load_csv] returns it; the status is read
    with [v.get("status", "available")]. *)
Record csv_vehicle : Type := {
  c_id : string;
  c_type : string;
  c_lat : string;
  c_lon : string;
  c_status : option string;
  c_station_id : option string
}.

(** The status after normalisation: stripped and lower-cased, and
    ['available'] when that is neither ['available'] nor ['busy']. *)
Definition normalize_status (s : option string) : string :=
  let st :=
    PyStr.normalize (match s with Some x => x | None => "available" end) in
  if String.eqb st "available" || String.eqb st "busy"
  then st else "available".

(** The loop [for v in vehicles] of [main]. *)
Definition normalize_vehicle (row : csv_vehicle) : vehicle :=
  {| v_id := c_id row;
     v_type := PyStr.normalize (c_type row);
     v_lat := Text (c_lat row);
     v_lon := Text (c_lon row);
     v_status := normalize_status (c_status row);
     v_station_id := c_station_id row |}.

Section WithParsers.

Variable float_of_string : string -> option Q.
Variable int_of_string : string -> option Z.

(** [main] once the three files are loaded: the rows handed to
    [save_vehicles].  [updated_vehicles[0]] raises [IndexError] on an
    empty fleet, before [save_vehicles] is reached. *)
Definition main (factors : list factor) (scenario_id : option string)
    (rows : list csv_vehicle) (stations : list station)
  : result (list vehicle) :=
  let? factor_row :=
    choose_factor_scenario float_of_string factors scenario_id in
  let vehicles := List.map normalize_vehicle rows in
  let updated_vehicles :=
    assign_vehicles_to_stations float_of_string int_of_string
      vehicles stations factor_row in
  match updated_vehicles with
  | [] => Raise IndexError
  | _ => Ok updated_vehicles
  end.

End WithParsers.

(** The vehicle [v] with its type replaced by [t]. *)
Definition set_type (t : string) (v : vehicle) : vehicle :=
  {| v_id := v_id v; v_type := t; v_lat := v_lat v; v_lon := v_lon v;
     v_status := v_status v; v_station_id := v_station_id v |}.

(** A fleet with a unit of a type no station of [Demo.stations] houses. *)
Definition fire_fleet : list vehicle :=
  [ Demo.unit_at_origin "F1" "fire" "available";
    Demo.unit_at_origin "A1" "ambulance" "available" ].

Definition demo_rows : list csv_vehicle :=
  [ {| c_id := "A1"; c_type := " Ambulance"; c_lat := "0"; c_lon := "0";
       c_status := Some "BUSY "; c_station_id := None |};
    {| c_id := "P1"; c_type := "police"; c_lat := "0"; c_lon := "0";
       c_status := Some "idle"; c_station_id := None |} ].

End Main.

(** ** init_db.py *)

Module InitDb.

Import Backend.

(** Why the script stops before the table is filled: a [lat] or [lon]
    that [float] rejects ([ValueError]), or two rows with the same id
    after stripping ([sqlite3.IntegrityError] on the primary key). *)
Inductive failure : Type :=
| BadNumber
| DuplicateId.

Section WithFloat.

Variable float_of_string : string -> option R.

(** The tuple appended to [to_db] for one row of the file. *)
Definition to_db_row (row : Main.csv_vehicle) : option vehicle :=
  match float_of_string (Main.c_lat row),
        float_of_string (Main.c_lon row) with
  | Some la, Some lo =>
      Some {| v_id := PyStr.strip (Main.c_id row);
              v_type := PyStr.normalize (Main.c_type row);
              v_lat := la;
              v_lon := lo;
              v_status := Main.normalize_status (Main.c_status row);
              v_station_id :=
                PyStr.strip (match Main.c_station_id row with
                             | Some s => s
                             | None => ""
                             end) |}
  | _, _ => None
  end.

Fixpoint to_db (rows : list Main.csv_vehicle) : option (list vehicle) :=
  match rows with
  | [] => Some []
  | row :: rest =>
      match to_db_row row with
      | None => None
      | Some v =>
          match to_db rest with
          | None => None
          | Some vs => Some (v :: vs)
          end
      end
  end.

(** [executemany(INSERT ...)] into a table whose primary key is [id]. *)
Fixpoint insert_all (table : list vehicle) (new_rows : list vehicle)
  : option (list vehicle) :=
  match new_rows with
  | [] => Some table
  | v :: rest =>
      if existsb (fun v0 => String.eqb (v_id v0) (v_id v)) table
      then None
      else insert_all (table ++ [v]) rest
  end.

(** The table [init_db] leaves behind, starting from an empty one. *)
Definition init_db (rows : list Main.csv_vehicle)
  : failure + list vehicle :=
  match to_db rows with
  | None => inl BadNumber
  | Some new_rows =>
      match insert_all [] new_rows with
      | None => inl DuplicateId
      | Some table => inr table
      end
  end.

End WithFloat.

(** A parser for the worked examples: every text is the number 0. *)
Definition zero_float : string -> option R := fun _ => Some 0%R.

End InitDb.

(** ** optimize_allocation_ai.py *)

Module AiAllocation.

Import Backend.

(** One object of the array the service is asked for.  [a["id"]],
    [a["lat"]] and [a["lon"]] raise [KeyError] when absent;
    [a.get("station_id", "")] does not. *)
Record assignment : Type := {
  a_id : option string;
  a_lat : option R;
  a_lon : option R;
  a_station_id : option string
}.

Definition set_position (la lo : R) (sid : string) (v : vehicle) : vehicle :=
  {| v_id := v_id v; v_type := v_type v; v_lat := la; v_lon := lo;
     v_status := v_status v; v_station_id := sid |}.

(** [UPDATE vehicles SET lat = ?, lon = ?, station_id = ? WHERE id = ?]. *)
Definition update_position (db : list vehicle) (uid : string) (la lo : R)
    (sid : string) : list vehicle :=
  List.map
    (fun v => if String.eqb (v_id v) uid then set_position la lo sid v else v)
    db.

(** One round of the loop of [update_db]: the table, and whether the
    statement was executed (and counted). *)
Definition update_one (db : list vehicle) (a : assignment)
  : list vehicle * bool :=
  match a_lat a, a_lon a, a_id a with
  | Some la, Some lo, Some uid =>
      (update_position db uid la lo
         (match a_station_id a with Some s => s | None => "" end),
       true)
  | _, _, _ => (db, false)
  end.

(** [update_db]: the table afterwards and the count it prints. *)
Definition update_db (db : list vehicle) (assignments : list assignment)
  : list vehicle * nat :=
  fold_left
    (fun '(db, count) a =>
       let '(db', executed) := update_one db a in
       (db', if executed then S count else count))
    assignments (db, 0).

(** An assignment with the three keys the statement needs. *)
Definition executable (a : assignment) : bool :=
  match a_lat a, a_lon a, a_id a with
  | Some _, Some _, Some _ => true
  | _, _, _ => false
  end.

(** An executable assignment for the rows of id [u]. *)
Definition names (u : string) (a : assignment) : bool :=
  executable a
  && match a_id a with
     | Some uid => String.eqb u uid
     | None => false
     end.

(** The row [v] after the assignments: placed by the last executable
    assignment for its id, untouched when there is none. *)
Definition settle (assignments : list assignment) (v : vehicle) : vehicle :=
  match last (List.filter (names (v_id v)) assignments) with
  | Some a =>
      match a_lat a, a_lon a with
      | Some la, Some lo =>
          set_position la lo
            (match a_station_id a with Some s => s | None => "" end) v
      | _, _ => v
      end
  | None => v
  end.

(** *** The call to the service *)

(** What one call of [model.generate_content] does: it returns a
    response with a text, or raises an exception with a message. *)
Inductive outcome : Type :=
| Reply (text : string)
| Exception (msg : string).

(** [needle in hay]. *)
Fixpoint contains (needle hay : string) : bool :=
  String.prefix needle hay
  || match hay with
     | EmptyString => false
     | String _ rest => contains needle rest
     end.

Definition is_rate_limit (msg : string) : bool :=
  contains "429" msg || contains "ResourceExhausted" msg
  || contains "Quota exceeded" msg.

Definition max_retries : nat := 5.
Definition base_delay : nat := 10.

(** The loop [for attempt in range(max_retries)], from [attempt] on with
    [left] rounds to go: the response if one came, and the seconds
    slept. *)
Fixpoint retry (service : nat -> outcome) (attempt left : nat)
    (slept : list nat) : option string * list nat :=
  match left with
  | 0 => (None, slept)
  | S left' =>
      match service attempt with
      | Reply text => (Some text, slept)
      | Exception msg =>
          if is_rate_limit msg
          then retry service (S attempt) left'
                 (slept ++ [base_delay * 2 ^ attempt])
          else (None, slept)
      end
  end.

Section WithJson.

(** [json.loads] on the cleaned text; [None] when it raises. *)
Variable json_loads : string -> option (list assignment).

(** [text[7:]] and [text[:-3]]. *)
Definition drop_chars (n : nat) (s : string) : string :=
  String.substring n (String.length s - n) s.

Definition drop_last_chars (n : nat) (s : string) : string :=
  String.substring 0 (String.length s - n) s.

Definition endswith (suffix s : string) : bool :=
  (String.length suffix <=? String.length s)
  && String.eqb
       (String.substring (String.length s - String.length suffix)
          (String.length suffix) s)
       suffix.

(** The text with the code fence of a Markdown block taken off. *)
Definition clean_reply (text : string) : string :=
  let text := PyStr.strip text in
  let text :=
    if String.prefix "```json" text then drop_chars 7 text else text in
  if endswith "```" text then drop_last_chars 3 text else text.

(** [optimize_allocation]: the assignments, and the seconds slept. *)
Definition optimize_allocation (service : nat -> outcome)
  : list assignment * list nat :=
  match retry service 0 max_retries [] with
  | (None, slept) => ([], slept)
  | (Some text, slept) =>
      match json_loads (clean_reply text) with
      | Some assignments => (assignments, slept)
      | None => ([], slept)
      end
  end.

(** The script: nothing is asked for an empty fleet, and the table is
    written only when assignments came back. *)
Definition run (db : list vehicle) (service : nat -> outcome)
  : list vehicle :=
  match db with
  | [] => db
  | _ =>
      match fst (optimize_allocation service) with
      | [] => db
      | new_assignments => fst (update_db db new_assignments)
      end
  end.

End WithJson.

(** *** Data of the worked examples *)

(** A service that is always over its quota. *)
Definition busy_service : nat -> outcome :=
  fun _ => Exception "429 Quota exceeded".

Definition no_json : string -> option (list assignment) := fun _ => None.

(** An assignment for an id that [demo_db] does not have, and one
    without a longitude. *)
Definition stray_assignments : list assignment :=
  [ {| a_id := Some "Z9"; a_lat := Some 1%R; a_lon := Some 1%R;
       a_station_id := None |};
    {| a_id := Some "A1"; a_lat := Some 1%R; a_lon := None;
       a_station_id := Some "S1" |} ].

End AiAllocation.

(** * Lists *)

Lemma lookup_map {A B : Type} (f : A -> B) (l : list A) (k : nat) :
  List.map f l !! k = f <$> (l !! k).
Proof.
  revert k. induction l as [| x l IH]; intros [| k]; cbn; auto.
Qed.

(** * Properties of the dispatcher *)

Module BackendProofs.

Import Backend.
Local Open Scope R_scope.

Lemma NoDup_map_lookup_inj {A B : Type} (f : A -> B) (l : list A)
    (i j : nat) (x y : A) :
  NoDup (List.map f l) -> l !! i = Some x -> l !! j = Some y ->
  f x = f y -> i = j.
Proof.
  intros Hnd Hi Hj Hxy.
  apply (NoDup_lookup (List.map f l) i j (f x)); [assumption | |].
  - rewrite lookup_map, Hi. reflexivity.
  - rewrite lookup_map, Hj, Hxy. reflexivity.
Qed.

(** ** The haversine distance *)

Lemma radians_minus (x y : R) : radians (x - y) = radians x - radians y.
Proof. unfold radians. lra. Qed.

Lemma sin_half_sq (u : R) : sin (u / 2) ^ 2 = (1 - cos u) / 2.
Proof.
  replace u with (2 * (u / 2)) at 2 by lra.
  rewrite cos_2a_sin. simpl. lra.
Qed.

(** The haversine term is [(1 - cos theta) / 2] for the central angle
    [theta], hence within [0, 1]: neither square root can fail. *)
Lemma hav_a_bounds (lat1 lon1 lat2 lon2 : R) :
  0 <= hav_a lat1 lon1 lat2 lon2 <= 1.
Proof.
  unfold hav_a. cbv zeta.
  rewrite !sin_half_sq, radians_minus, cos_minus.
  set (p1 := radians lat1). set (p2 := radians lat2).
  set (t := cos (radians (lon2 - lon1))).
  assert (Ht : -1 <= t <= 1) by apply COS_bound.
  pose proof (sin2_cos2 p1) as H1. pose proof (sin2_cos2 p2) as H2.
  unfold Rsqr in H1, H2.
  set (s1 := sin p1) in *. set (s2 := sin p2) in *.
  set (c1 := cos p1) in *. set (c2 := cos p2) in *.
  clearbody s1 s2 c1 c2 t.
  pose proof (Rle_0_sqr (s1 - s2)) as A1.
  pose proof (Rle_0_sqr (s1 + s2)) as A2.
  unfold Rsqr in *.
  assert (B1 : 0 <= (1 + t) * ((c1 - c2) * (c1 - c2)))
    by (apply Rmult_le_pos; [lra | apply Rle_0_sqr]).
  assert (B2 : 0 <= (1 - t) * ((c1 + c2) * (c1 + c2)))
    by (apply Rmult_le_pos; [lra | apply Rle_0_sqr]).
  assert (B3 : 0 <= (1 - t) * ((c1 - c2) * (c1 - c2)))
    by (apply Rmult_le_pos; [lra | apply Rle_0_sqr]).
  assert (B4 : 0 <= (1 + t) * ((c1 + c2) * (c1 + c2)))
    by (apply Rmult_le_pos; [lra | apply Rle_0_sqr]).
  split; nra.
Qed.

Lemma py_sqrt_nonneg (x : R) : 0 <= x -> py_sqrt x = Ok (sqrt x).
Proof.
  intros H. unfold py_sqrt. destruct (Rlt_dec x 0); [lra | reflexivity].
Qed.

Lemma distance_km_value (lat1 lon1 lat2 lon2 : R) :
  distance_km lat1 lon1 lat2 lon2 = Ok (haversine lat1 lon1 lat2 lon2).
Proof.
  unfold distance_km, haversine. cbv zeta.
  destruct (hav_a_bounds lat1 lon1 lat2 lon2) as [H0 H1].
  rewrite !py_sqrt_nonneg by lra. reflexivity.
Qed.

Lemma atan_nonneg (x : R) : 0 <= x -> 0 <= atan x.
Proof.
  intros [H | <-].
  - left. rewrite <- atan_0. now apply atan_increasing.
  - rewrite atan_0. lra.
Qed.

Lemma atan2_nonneg (y x : R) : 0 <= y -> 0 <= x -> 0 <= atan2 y x.
Proof.
  intros Hy Hx. unfold atan2.
  destruct (Rlt_dec 0 x) as [Hpos | _].
  - apply atan_nonneg. apply Rmult_le_pos; [lra |].
    left. now apply Rinv_0_lt_compat.
  - destruct (Rlt_dec x 0); [lra |].
    destruct (Rlt_dec 0 y); [pose proof PI_RGT_0; lra |].
    destruct (Rlt_dec y 0); lra.
Qed.

Lemma atan2_0_1 : atan2 0 1 = 0.
Proof.
  unfold atan2. destruct (Rlt_dec 0 1); [| lra].
  replace (0 / 1) with 0 by lra. apply atan_0.
Qed.

Lemma hav_a_sym (lat1 lon1 lat2 lon2 : R) :
  hav_a lat1 lon1 lat2 lon2 = hav_a lat2 lon2 lat1 lon1.
Proof.
  unfold hav_a. cbv zeta. rewrite !radians_minus.
  replace ((radians lat1 - radians lat2) / 2)
    with (- ((radians lat2 - radians lat1) / 2)) by lra.
  replace ((radians lon1 - radians lon2) / 2)
    with (- ((radians lon2 - radians lon1) / 2)) by lra.
  rewrite !sin_neg. ring.
Qed.

Lemma hav_a_same (lat lon : R) : hav_a lat lon lat lon = 0.
Proof.
  unfold hav_a, radians. cbv zeta.
  replace ((lat - lat) * (PI / 180) / 2) with 0 by lra.
  replace ((lon - lon) * (PI / 180) / 2) with 0 by lra.
  rewrite sin_0. ring.
Qed.

Lemma haversine_same (lat lon : R) : haversine lat lon lat lon = 0.
Proof.
  unfold haversine. cbv zeta. rewrite hav_a_same.
  replace (1 - 0) with 1 by lra.
  rewrite sqrt_0, sqrt_1, atan2_0_1. lra.
Qed.


(** ** The loop that keeps the closest candidate *)

Section Closest.

Variables lat lon : R.

Lemma lookup_snoc_inv (seen : list vehicle) (v c : vehicle) (j : nat) :
  (seen ++ [v]) !! j = Some c ->
  ((j < length seen)%nat /\ seen !! j = Some c) \/
  (j = length seen /\ c = v).
Proof.
  intros Hj.
  destruct (decide (j < length seen)%nat) as [Hjl | Hjl].
  - left. rewrite lookup_app_l in Hj by assumption. now split.
  - right. rewrite lookup_app_r in Hj by lia.
    destruct (j - length seen)%nat eqn:E; cbn in Hj; [| discriminate].
    injection Hj as <-. split; [lia | reflexivity].
Qed.

Lemma closest_step_inv (seen : list vehicle)
    (st : option vehicle * option R) (v : vehicle) :
  closest_inv lat lon seen st ->
  exists st', closest_step lat lon (Ok st) v = Ok st' /\
              closest_inv lat lon (seen ++ [v]) st'.
Proof.
  intros Hinv. unfold closest_step. cbn [bind].
  rewrite distance_km_value. cbn [bind].
  destruct st as [[b |] [m |]]; cbn [closest_inv] in Hinv;
    try contradiction.
  - destruct Hinv as [-> [i [Hi Hmin]]].
    destruct (Rlt_dec _ _) as [Hlt | Hge].
    + eexists; split; [reflexivity |]. split; [reflexivity |].
      exists (length seen). split.
      * rewrite lookup_app_r by lia. now rewrite Nat.sub_diag.
      * intros j c Hj.
        destruct (lookup_snoc_inv _ _ _ _ Hj) as [[Hjl Hc] | [-> ->]].
        -- destruct (Hmin j c Hc) as [Hle _]. split; intros; lra.
        -- split; [lra | lia].
    + eexists; split; [reflexivity |]. split; [reflexivity |].
      exists i. pose proof (lookup_lt_Some _ _ _ Hi) as Hlen. split.
      * now rewrite lookup_app_l.
      * intros j c Hj.
        destruct (lookup_snoc_inv _ _ _ _ Hj) as [[Hjl Hc] | [-> ->]].
        -- now apply Hmin.
        -- split; [lra | lia].
  - subst seen. eexists; split; [reflexivity |]. split; [reflexivity |].
    exists 0%nat. split; [reflexivity |].
    intros [| j] c Hj; cbn in Hj; [| discriminate].
    injection Hj as <-. split; [lra | lia].
Qed.

Lemma closest_fold_inv (l : list vehicle) :
  forall (seen : list vehicle) (st : option vehicle * option R),
    closest_inv lat lon seen st ->
    exists st', fold_left (closest_step lat lon) l (Ok st) = Ok st' /\
                closest_inv lat lon (seen ++ l) st'.
Proof.
  induction l as [| v l IH]; intros seen st Hinv.
  - exists st. rewrite app_nil_r. now split.
  - destruct (closest_step_inv seen st v Hinv) as [st1 [E1 H1]].
    cbn [fold_left]. rewrite E1.
    destruct (IH (seen ++ [v]) st1 H1) as [st' [E' H']].
    exists st'. split; [exact E' |].
    now rewrite <- app_assoc in H'.
Qed.

Lemma closest_first_closest (candidates : list vehicle) :
  candidates <> [] ->
  exists i b,
    closest lat lon candidates
      = Ok (Some b, Some (haversine lat lon (v_lat b) (v_lon b))) /\
              first_closest lat lon candidates i b.
Proof.
  intros Hne.
  destruct (closest_fold_inv candidates [] (None, None) eq_refl)
    as [[[b |] [m |]] [E H]]; cbn [closest_inv app] in H;
    try contradiction.
  destruct H as [-> [i Hi]]. exists i, b. now split.
Qed.

End Closest.

(** ** The table *)

Lemma update_busy_insert (db : list vehicle) (kb : nat) (best : vehicle) :
  NoDup (List.map v_id db) -> db !! kb = Some best ->
  update_busy db (v_id best) = <[kb := set_status "busy" best]> db.
Proof.
  intros Hnd Hkb. apply list_eq. intros k. unfold update_busy.
  rewrite lookup_map.
  destruct (decide (k = kb)) as [-> | Hne].
  - rewrite list_lookup_insert_eq by (eapply lookup_lt_Some; eassumption).
    rewrite Hkb. cbn. now rewrite String.eqb_refl.
  - rewrite list_lookup_insert_ne by congruence.
    destruct (db !! k) as [v |] eqn:Hk; cbn; [| reflexivity].
    destruct (String.eqb_spec (v_id v) (v_id best)) as [Heq | _];
      [| reflexivity].
    exfalso. apply Hne.
    eapply (NoDup_map_lookup_inj v_id); eassumption.
Qed.

Lemma select_available_lookup (db : list vehicle) (req_type : string)
    (i : nat) (c : vehicle) :
  select_available db req_type !! i = Some c ->
  exists k, db !! k = Some c /\ v_type c = req_type /\
            v_status c = "available"%string.
Proof.
  intros Hi. apply list_elem_of_lookup_2 in Hi. apply list_elem_of_In in Hi.
  unfold select_available in Hi. apply filter_In in Hi as [Hin Hb].
  apply andb_true_iff in Hb as [Ht Hs].
  apply String.eqb_eq in Ht, Hs.
  apply list_elem_of_In, list_elem_of_lookup_1 in Hin as [k Hk]. eauto.
Qed.

Lemma select_available_nil (db : list vehicle) (req_type : string) :
  (forall v, v ∈ db -> v_type v = req_type ->
             v_status v <> "available"%string) ->
  select_available db req_type = [].
Proof.
  intros H. destruct (select_available db req_type) as [| c l] eqn:E;
    [reflexivity |].
  destruct (select_available_lookup db req_type 0 c) as [k [Hk [Ht Hs]]];
    [now rewrite E |].
  exfalso. eapply H; [eapply list_elem_of_lookup_2 |..]; eassumption.
Qed.

(** ** request_unit *)

Section Request.

Variable float_of_string : string -> option R.

Lemma request_unit_pair (db : list vehicle) (data : request)
    (lat lon : R) :
  r_location data = JList [JNum lat; JNum lon] ->
  request_unit float_of_string db data =
    let candidates :=
      select_available db (PyStr.normalize (r_type data)) in
    match candidates with
    | [] => (Error400 "No available unit", db)
    | _ =>
        match closest lat lon candidates with
        | Raise e => (Unhandled e, db)
        | Ok (None, _) => (Error500 "Error finding closest unit", db)
        | Ok (Some best_unit, _) =>
            (Assigned (v_id best_unit)
                      (v_lat best_unit, v_lon best_unit) (lat, lon),
             update_busy db (v_id best_unit))
        end
    end.
Proof. intros Hloc. unfold request_unit. rewrite Hloc. reflexivity. Qed.

Lemma py_float_raises (j : json) (e : pyexn) :
  py_float float_of_string j = Raise e -> e = TypeError \/ e = ValueError.
Proof.
  destruct j; cbn; try (intros [= <-]; auto); try discriminate.
  destruct (float_of_string s); [discriminate | intros [= <-]; auto].
Qed.

Lemma request_unit_malformed (db : list vehicle) (data : request) :
  malformed_location float_of_string (r_location data) ->
  exists msg,
    request_unit float_of_string db data = (Error400 msg, db) /\
    spec_error_kind (Error400 msg) = Some InvalidRequestError.
Proof.
  intros H. unfold request_unit.
  destruct H as [| l Hlen | x y e Hx | x y e Hy].
  - eexists; split; reflexivity.
  - destruct l as [| a [| b [| c l]]]; cbn in Hlen |- *;
      try (eexists; split; reflexivity). lia.
  - cbn [truthy negb py_len List.length Nat.eqb].
    unfold parse_location. cbn [py_getitem nth_error bind].
    rewrite Hx. cbn [bind].
    destruct (py_float_raises _ _ Hx) as [-> | ->];
      eexists; split; reflexivity.
  - cbn [truthy negb py_len List.length Nat.eqb].
    unfold parse_location. cbn [py_getitem nth_error bind].
    destruct (py_float float_of_string x) as [a | e'] eqn:Hx; cbn [bind].
    + rewrite Hy. cbn [bind].
      destruct (py_float_raises _ _ Hy) as [-> | ->];
        eexists; split; reflexivity.
    + destruct (py_float_raises _ _ Hx) as [-> | ->];
        eexists; split; reflexivity.
Qed.




End Request.

(** ** Worked examples *)

Lemma demo_db_ids : NoDup (List.map v_id demo_db).
Proof. apply (bool_decide_unpack _). reflexivity. Qed.

(** Two available ambulances at the same distance: the one listed first
    is sent, and it alone becomes busy. *)
Example demo_tie_break :
  request_unit no_float demo_db (demo_request "ambulance") =
    (Assigned "A2" (0, 0) (0, 0),
     [ row "A1" "ambulance" 1 1 "busy" "S1";
       row "A2" "ambulance" 0 0 "busy" "S1";
       row "A3" "ambulance" 0 0 "available" "S2";
       row "P1" "police" 0 0 "busy" "S2" ]).
Proof.
  rewrite (request_unit_pair no_float demo_db (demo_request "ambulance")
             0 0 eq_refl).
  cbn [demo_request r_type]. cbv zeta.
  change (select_available demo_db (PyStr.normalize "ambulance"))
    with [row "A2" "ambulance" 0 0 "available" "S1";
          row "A3" "ambulance" 0 0 "available" "S2"].
  unfold closest. cbn [fold_left]. unfold closest_step. cbn [bind].
  rewrite !distance_km_value. cbn [bind row v_lat v_lon].
  rewrite haversine_same.
  destruct (Rlt_dec 0 0) as [H | _]; [lra | reflexivity].
Qed.





End BackendProofs.

(** * Properties of the allocator *)

Module AllocationProofs.

Import Allocation.

(** ** Dictionaries *)

Lemma dict_get_set_eq {V : Type} (d : dict V) (k : string) (x : V) :
  dict_get (dict_set d k x) k = Some x.
Proof.
  induction d as [| [k' x'] d IH]; cbn.
  - now rewrite String.eqb_refl.
  - destruct (String.eqb_spec k' k) as [-> | Hne]; cbn.
    + now rewrite String.eqb_refl.
    + destruct (String.eqb_spec k' k); [contradiction | exact IH].
Qed.

Lemma dict_get_set_ne {V : Type} (d : dict V) (k k0 : string) (x : V) :
  k <> k0 -> dict_get (dict_set d k x) k0 = dict_get d k0.
Proof.
  intros Hne. induction d as [| [k' x'] d IH]; cbn.
  - destruct (String.eqb_spec k k0); [contradiction | reflexivity].
  - destruct (String.eqb_spec k' k) as [-> | Hne']; cbn.
    + destruct (String.eqb_spec k k0); [contradiction | reflexivity].
    + now rewrite IH.
Qed.

Lemma dict_set_fresh {V : Type} (d : dict V) (k : string) (x : V) :
  ~ In k (List.map fst d) -> dict_set d k x = d ++ [(k, x)].
Proof.
  induction d as [| [k' x'] d IH]; cbn; intros Hnin; [reflexivity |].
  destruct (String.eqb_spec k' k) as [-> | Hne].
  - exfalso. apply Hnin. now left.
  - rewrite IH; [reflexivity |]. intros Hin. apply Hnin. now right.
Qed.

Lemma dict_set_keys {V : Type} (d : dict V) (k k0 : string) (x : V) :
  In k0 (List.map fst (dict_set d k x)) <-> k0 = k \/ In k0 (List.map fst d).
Proof.
  induction d as [| [k' x'] d IH]; cbn.
  - intuition congruence.
  - destruct (String.eqb_spec k' k) as [-> | Hne]; cbn.
    + intuition congruence.
    + rewrite IH. intuition congruence.
Qed.

Lemma dict_set_in {V : Type} (d : dict V) (k : string) (x : V)
    (kx : string * V) :
  In kx (dict_set d k x) -> kx = (k, x) \/ In kx d.
Proof.
  induction d as [| [k' x'] d IH]; cbn.
  - intros [<- | []]. now left.
  - destruct (String.eqb_spec k' k) as [-> | Hne]; cbn.
    + intros [<- | H]; auto.
    + intros [<- | H]; [auto |]. apply IH in H as [H | H]; auto.
Qed.

Lemma dict_get_in_keys {V : Type} (d : dict V) (k : string) :
  In k (List.map fst d) -> exists x, dict_get d k = Some x.
Proof.
  induction d as [| [k' x'] d IH]; cbn; [contradiction |].
  intros [-> | Hin].
  - rewrite String.eqb_refl. eauto.
  - destruct (String.eqb k' k); eauto.
Qed.

(** ** Rounding *)

Lemma py_round_nearest (x : Q) :
  (Qabs (inject_Z (py_round x) - x) <= 1 # 2)%Q.
Proof.
  unfold py_round. cbv zeta.
  pose proof (Qfloor_le x) as Hlo. pose proof (Qlt_floor x) as Hhi.
  rewrite inject_Z_plus in Hhi. change (inject_Z 1) with 1%Q in Hhi.
  destruct (Qcompare (x - inject_Z (Qfloor x)) (1 # 2)) eqn:E.
  - apply Qeq_alt in E.
    destruct (Z.even (Qfloor x));
      [| rewrite inject_Z_plus; change (inject_Z 1) with 1%Q];
      generalize dependent (inject_Z (Qfloor x)); intros q **;
      apply Qabs_case; intros _; lra.
  - apply Qlt_alt in E.
    generalize dependent (inject_Z (Qfloor x)); intros q **.
    apply Qabs_case; intros _; lra.
  - apply Qgt_alt in E.
    rewrite inject_Z_plus; change (inject_Z 1) with 1%Q.
    generalize dependent (inject_Z (Qfloor x)); intros q **.
    apply Qabs_case; intros _; lra.
Qed.

Lemma py_round_mult_1 (z : Z) : py_round (inject_Z z * 1) = z.
Proof.
  unfold py_round. cbv zeta.
  assert (Ef : Qfloor (inject_Z z * 1) = z).
  { rewrite <- (Qfloor_Z z) at 2. apply Qfloor_comp. lra. }
  rewrite Ef.
  assert (E : Qcompare (inject_Z z * 1 - inject_Z z) (1 # 2) = Lt).
  { apply (proj1 (Qlt_alt _ _)). generalize (inject_Z z). intros q. lra. }
  now rewrite E.
Qed.

Lemma py_round_nonpos (x : Q) : (x <= 0)%Q -> (py_round x <= 0)%Z.
Proof.
  intros Hx. unfold py_round. cbv zeta.
  pose proof (Qfloor_le x) as Hlo.
  generalize dependent (Qfloor x). intros f Hlo.
  assert (Hf : (f <= 0)%Z)
    by (rewrite Zle_Qle; change (inject_Z 0) with 0%Q; lra).
  destruct (Qcompare (x - inject_Z f) (1 # 2)) eqn:E; [| lia |].
  - apply Qeq_alt in E.
    assert (f <> 0)%Z by (intros ->; change (inject_Z 0) with 0%Q in E; lra).
    destruct (Z.even f); lia.
  - apply Qgt_alt in E.
    assert (f <> 0)%Z by (intros ->; change (inject_Z 0) with 0%Q in E; lra).
    lia.
Qed.

Lemma Qmult_nonpos_nonneg (q vol : Q) :
  (0 <= vol)%Q -> (q <= 0)%Q -> (q * (1 + vol) <= 0)%Q.
Proof.
  intros Hvol Hq.
  assert (H1 : (0 <= 1 + vol)%Q) by lra.
  assert (H2 : (q * (1 + vol) <= 0 * (1 + vol))%Q)
    by (apply Qmult_le_compat_r; assumption).
  lra.
Qed.

(** ** compute_station_weights *)

Section Weights.

Variable float_of_string : string -> option Q.
Variable int_of_string : string -> option Z.

Local Abbreviation station_weight := (station_weight int_of_string).
Local Abbreviation weights_step := (weights_step int_of_string).
Local Abbreviation compute_station_weights :=
  (compute_station_weights float_of_string int_of_string).
Local Abbreviation factor_weight :=
  (factor_weight float_of_string int_of_string).

Lemma weights_step_station_weight (region_hot : string) (mult : Q)
    (vtype : string) (weights : dict Z) (s : station) :
  weights_step region_hot mult vtype weights s =
  match station_weight region_hot mult vtype s with
  | Some w => dict_set weights (s_id s) w
  | None => weights
  end.
Proof.
  unfold Allocation.weights_step, Allocation.station_weight. cbv zeta.
  destruct (capacity int_of_string vtype s <=? 0)%Z; [reflexivity |].
  destruct (String.eqb _ _);
    match goal with |- context [(?w <? 0)%Z] =>
      destruct (w <? 0)%Z end;
    match goal with |- context [(0 <? ?w)%Z] =>
      destruct (0 <? w)%Z end; reflexivity.
Qed.

Lemma station_weight_pos (region_hot : string) (mult : Q)
    (vtype : string) (s : station) (w : Z) :
  station_weight region_hot mult vtype s = Some w -> (0 < w)%Z.
Proof.
  unfold Allocation.station_weight. cbv zeta.
  destruct (_ <=? 0)%Z; [discriminate |].
  match goal with |- context [(0 <? ?x)%Z] =>
    destruct (Z.ltb_spec 0 x) end; [| discriminate].
  now intros [= <-].
Qed.

(** The keys of the weight map are ids of stations. *)
Lemma weights_fold_keys (region_hot : string) (mult : Q) (vtype : string)
    (stations : list station) :
  forall (acc : dict Z) (k : string),
    In k (List.map fst
            (fold_left (weights_step region_hot mult vtype) stations acc)) ->
    In k (List.map fst acc) \/ In k (List.map s_id stations).
Proof.
  induction stations as [| s stations IH]; intros acc k; cbn; [auto |].
  intros Hin. apply IH in Hin as [Hin | Hin]; [| auto].
  rewrite weights_step_station_weight in Hin.
  destruct (station_weight region_hot mult vtype s); [| auto].
  apply dict_set_keys in Hin as [-> | Hin]; auto.
Qed.

(** Every weight in the map is positive. *)
Lemma weights_fold_pos (region_hot : string) (mult : Q) (vtype : string)
    (stations : list station) :
  forall (acc : dict Z) (kw : string * Z),
    (forall kw', In kw' acc -> (0 < snd kw')%Z) ->
    In kw (fold_left (weights_step region_hot mult vtype) stations acc) ->
    (0 < snd kw)%Z.
Proof.
  induction stations as [| s stations IH]; intros acc kw Hacc; cbn;
    [apply Hacc |].
  apply IH. intros kw' Hin.
  rewrite weights_step_station_weight in Hin.
  destruct (station_weight region_hot mult vtype s) as [w |] eqn:E;
    [| now apply Hacc].
  apply dict_set_in in Hin as [-> | Hin]; [| now apply Hacc].
  cbn. eapply station_weight_pos. exact E.
Qed.

(** With unique station ids every assignment to the map adds a new
    key: the map lists the stations that got a weight, in the order
    of the input. *)
Lemma weights_fold_nodup (region_hot : string) (mult : Q) (vtype : string)
    (stations : list station) :
  forall acc : dict Z,
    NoDup (List.map s_id stations) ->
    (forall k, In k (List.map fst acc) ->
               ~ In k (List.map s_id stations)) ->
    fold_left (weights_step region_hot mult vtype) stations acc =
    acc ++ omap (fun s => option_map (fun w => (s_id s, w))
                            (station_weight region_hot mult vtype s))
                stations.
Proof.
  induction stations as [| s stations IH]; intros acc Hnd Hfresh; cbn.
  - now rewrite app_nil_r.
  - cbn in Hnd. apply NoDup_cons in Hnd as [Hs Hnd].
    rewrite weights_step_station_weight.
    destruct (station_weight region_hot mult vtype s) as [w |]; cbn.
    + rewrite dict_set_fresh.
      * rewrite IH; [now rewrite <- app_assoc | assumption |].
        intros k Hk. rewrite List.map_app, in_app_iff in Hk. cbn in Hk.
        destruct Hk as [Hk | [<- | []]].
        -- intros Hin. apply (Hfresh k Hk). now right.
        -- now rewrite <- list_elem_of_In.
      * intros Hin. apply (Hfresh _ Hin). now left.
    + apply IH; [assumption |].
      intros k Hk Hin. apply (Hfresh k Hk). now right.
Qed.

Lemma compute_station_weights_nodup (stations : list station)
    (factor_row : factor) (vtype : string) :
  NoDup (List.map s_id stations) ->
  compute_station_weights stations factor_row vtype =
  omap (fun s => option_map (fun w => (s_id s, w))
                   (factor_weight factor_row vtype s))
       stations.
Proof.
  intros Hnd. unfold Allocation.compute_station_weights. cbv zeta.
  rewrite weights_fold_nodup; [reflexivity | assumption |].
  intros k [].
Qed.

Lemma compute_station_weights_keys (stations : list station)
    (factor_row : factor) (vtype : string) (k : string) :
  In k (List.map fst (compute_station_weights stations factor_row vtype)) ->
  In k (List.map s_id stations).
Proof.
  intros Hin. apply weights_fold_keys in Hin as [[] | Hin]. exact Hin.
Qed.

Lemma cap_field_kind (t : vehicle_kind) :
  cap_field (kind_name t) = capacity_text t.
Proof. destruct t; reflexivity. Qed.

(** The weight the loop gives a station is the weight of the rule of
    the specification, read with region labels trimmed and compared
    without regard to case. *)
Lemma factor_weight_spec (factor_row : factor) (t : vehicle_kind)
    (s : station) :
  (0 <= safe_float float_of_string (f_expected_call_volume factor_row))%Q ->
  factor_weight factor_row (kind_name t) s =
  spec_weight float_of_string int_of_string trimmed_case_insensitive_eq
    factor_row t s.
Proof.
  intros Hvol.
  unfold Allocation.factor_weight, Allocation.station_weight,
    spec_weight, capacity.
  rewrite cap_field_kind. cbv zeta.
  destruct (capacity_text t s) as [txt |]; [| reflexivity].
  destruct (int_of_string txt) as [c |]; [| reflexivity].
  change (String.eqb (region_of (s_region s))
                     (region_of (f_region factor_row)))
    with (trimmed_case_insensitive_eq (label (s_region s))
                                      (label (f_region factor_row))).
  set (vol := safe_float float_of_string
                (f_expected_call_volume factor_row)) in *.
  clearbody vol.
  destruct (Z.leb_spec c 0) as [Hc | Hc].
  - destruct (Z.eqb_spec c 0) as [-> | Hc0]; [reflexivity |].
    assert (Hw : (py_round (inject_Z c * (1 + vol)) <= 0)%Z).
    { apply py_round_nonpos.
      assert (inject_Z c <= 0)%Q
        by (change 0%Q with (inject_Z 0); now rewrite <- Zle_Qle).
      now apply Qmult_nonpos_nonneg. }
    destruct (trimmed_case_insensitive_eq _ _);
      match goal with |- context [(Z.max 0 ?w =? 0)%Z] =>
        destruct (Z.eqb_spec (Z.max 0 w) 0) end; try reflexivity; lia.
  - destruct (Z.eqb_spec c 0) as [-> | _]; [lia |].
    rewrite py_round_mult_1.
    destruct (trimmed_case_insensitive_eq _ _);
      match goal with |- context [(?w <? 0)%Z] =>
        destruct (Z.ltb_spec w 0) end;
      match goal with |- context [(0 <? ?w)%Z] =>
        destruct (Z.ltb_spec 0 w) end;
      match goal with |- context [(Z.max 0 ?w =? 0)%Z] =>
        destruct (Z.eqb_spec (Z.max 0 w) 0) end;
      try reflexivity; try (f_equal; lia); lia.
Qed.


End Weights.


(** ** The flat weighted list *)

Lemma weighted_station_ids_flat (weights : dict Z) :
  weighted_station_ids weights =
  flat_map (fun kv => repeat (fst kv) (Z.to_nat (snd kv))) weights.
Proof.
  unfold weighted_station_ids.
  enough (H : forall acc,
             fold_left (fun acc '(sid, w) => acc ++ repeat sid (Z.to_nat w))
                       weights acc
             = acc ++ flat_map (fun kv => repeat (fst kv) (Z.to_nat (snd kv)))
                               weights)
    by apply (H []).
  induction weights as [| [sid w] weights IH]; intros acc; cbn.
  - now rewrite app_nil_r.
  - rewrite IH. now rewrite <- app_assoc.
Qed.

Lemma weighted_station_ids_keys (weights : dict Z) (sid : string) :
  In sid (weighted_station_ids weights) -> In sid (List.map fst weights).
Proof.
  rewrite weighted_station_ids_flat, in_flat_map.
  intros [[k w] [Hin Hrep]]. cbn in Hrep.
  apply repeat_spec in Hrep as ->.
  apply in_map_iff. now exists (k, w).
Qed.

(** ** Positions of a type *)

Lemma index_of_Some (l : list nat) : forall k j,
  index_of k l = Some j -> l !! j = Some k.
Proof.
  induction l as [| k' l IH]; intros k j; cbn; [discriminate |].
  destruct (Nat.eqb_spec k' k) as [-> | Hne].
  - now intros [= <-].
  - destruct (index_of k l) as [j' |] eqn:E; cbn; [| discriminate].
    intros [= <-]. cbn. now apply IH.
Qed.

Lemma index_of_None (l : list nat) (k : nat) :
  index_of k l = None <-> ~ In k l.
Proof.
  induction l as [| k' l IH]; cbn; [tauto |].
  destruct (Nat.eqb_spec k' k) as [-> | Hne].
  - split; [discriminate | intros H; exfalso; auto].
  - destruct (index_of k l); cbn.
    + split; [discriminate |]. intros H. exfalso.
      destruct IH as [_ IH].
      enough (Some n = None) by discriminate. apply IH. tauto.
    + split; [| reflexivity]. intros _ [H | H]; [congruence |].
      now apply (proj1 IH).
Qed.

Lemma index_of_lookup (l : list nat) : forall k j,
  NoDup l -> l !! j = Some k -> index_of k l = Some j.
Proof.
  intros k j Hnd Hj.
  destruct (index_of k l) as [j' |] eqn:E.
  - apply index_of_Some in E. f_equal.
    eapply NoDup_lookup; eassumption.
  - apply index_of_None in E. exfalso. apply E.
    apply list_elem_of_In. eapply list_elem_of_lookup_2; eassumption.
Qed.

Lemma type_indices_from_in (vehicles : list vehicle) (t : string) :
  forall i k,
    In k (type_indices_from i vehicles t) <->
    (i <= k /\ exists v, vehicles !! (k - i) = Some v /\
                         PyStr.normalize (v_type v) = t).
Proof.
  induction vehicles as [| v rest IH]; intros i k; cbn.
  - split; [contradiction | intros [_ [v [H _]]]; discriminate].
  - assert (Hrest : In k (type_indices_from (S i) rest t) <->
                    (i < k /\ exists v', (v :: rest) !! (k - i) = Some v' /\
                                         PyStr.normalize (v_type v') = t)).
    { rewrite IH. split.
      - intros [Hle [v' [Hv Ht]]]. split; [lia |]. exists v'.
        replace (k - i) with (S (k - S i)) by lia. now split.
      - intros [Hlt [v' [Hv Ht]]]. split; [lia |]. exists v'.
        replace (k - i) with (S (k - S i)) in Hv by lia. now split. }
    destruct (String.eqb_spec (PyStr.normalize (v_type v)) t) as [Ht | Ht].
    + cbn. rewrite Hrest. split.
      * intros [<- | [Hlt H]].
        -- split; [lia |]. exists v. now rewrite Nat.sub_diag.
        -- split; [lia | exact H].
      * intros [Hle H]. destruct (decide (i = k)) as [-> | Hne];
          [now left | right]. split; [lia | exact H].
    + rewrite Hrest. split.
      * intros [Hlt H]. split; [lia | exact H].
      * intros [Hle [v' [Hv Hv']]]. split; [| now exists v'].
        destruct (decide (i = k)) as [-> | Hne]; [| lia].
        rewrite Nat.sub_diag in Hv. cbn in Hv. congruence.
Qed.

Lemma type_indices_in (vehicles : list vehicle) (t : string) (k : nat) :
  In k (type_indices vehicles t) <->
  exists v, vehicles !! k = Some v /\ PyStr.normalize (v_type v) = t.
Proof.
  unfold type_indices. rewrite type_indices_from_in, Nat.sub_0_r.
  split; [tauto | intros H; split; [lia | exact H]].
Qed.

Lemma type_indices_from_NoDup (vehicles : list vehicle) (t : string) :
  forall i, NoDup (type_indices_from i vehicles t).
Proof.
  induction vehicles as [| v rest IH]; intros i; cbn; [constructor |].
  destruct (String.eqb _ t); [| apply IH].
  apply NoDup_cons. split; [| apply IH].
  rewrite list_elem_of_In, type_indices_from_in. lia.
Qed.

Lemma type_indices_NoDup (vehicles : list vehicle) (t : string) :
  NoDup (type_indices vehicles t).
Proof. apply type_indices_from_NoDup. Qed.

(** The positions depend on the types only. *)
Lemma type_indices_from_types (t : string) (l : list vehicle) :
  forall (l' : list vehicle) (i : nat),
    List.map v_type l = List.map v_type l' ->
    type_indices_from i l t = type_indices_from i l' t.
Proof.
  induction l as [| v l IH]; intros [| v' l'] i; cbn;
    try discriminate; [reflexivity |].
  intros [= Hv Hl]. rewrite Hv, (IH l' (S i) Hl). reflexivity.
Qed.

(** ** The grouping loop *)

Lemma vehicles_by_type_from (vehicles : list vehicle) :
  forall (i : nat) (a p f : list nat),
    fold_left
      (fun by_type '(i, v) =>
         dict_append by_type (PyStr.normalize (v_type v)) i)
      (enumerate_from i vehicles)
      [("ambulance", a); ("police", p); ("fire", f)]
    = [("ambulance", a ++ type_indices_from i vehicles "ambulance");
       ("police", p ++ type_indices_from i vehicles "police");
       ("fire", f ++ type_indices_from i vehicles "fire")].
Proof.
  induction vehicles as [| v rest IH]; intros i a p f;
    cbn [enumerate_from fold_left type_indices_from].
  - now rewrite !app_nil_r.
  - unfold dict_append at 2. cbn [dict_get dict_set].
    destruct (String.eqb_spec "ambulance" (PyStr.normalize (v_type v)))
      as [<- | Ha].
    { cbn. rewrite IH. now rewrite <- !app_assoc. }
    destruct (String.eqb_spec "police" (PyStr.normalize (v_type v)))
      as [<- | Hp].
    { cbn. rewrite IH. now rewrite <- !app_assoc. }
    destruct (String.eqb_spec "fire" (PyStr.normalize (v_type v)))
      as [<- | Hf].
    { cbn. rewrite IH. now rewrite <- !app_assoc. }
    rewrite IH.
    destruct (String.eqb_spec (PyStr.normalize (v_type v)) "ambulance");
      [congruence |].
    destruct (String.eqb_spec (PyStr.normalize (v_type v)) "police");
      [congruence |].
    destruct (String.eqb_spec (PyStr.normalize (v_type v)) "fire");
      [congruence |].
    reflexivity.
Qed.

Lemma vehicles_by_type_eq (vehicles : list vehicle) :
  vehicles_by_type vehicles =
  [("ambulance", type_indices vehicles "ambulance");
   ("police", type_indices vehicles "police");
   ("fire", type_indices vehicles "fire")].
Proof. apply (vehicles_by_type_from vehicles 0 [] [] []). Qed.


(** ** build_station_lookup *)

Lemma build_station_lookup_fst (stations : list station) :
  fst (build_station_lookup stations) =
  fold_left (fun d s => dict_set d (s_id s) s) stations [].
Proof.
  unfold build_station_lookup.
  generalize (@nil (string * station)) (@nil (string * list string)).
  induction stations as [| s stations IH]; intros d r; cbn; [reflexivity |].
  apply IH.
Qed.

Lemma lookup_fold_get (stations : list station) :
  forall (d : dict station) (sid : string) (st : station),
    dict_get (fold_left (fun d s => dict_set d (s_id s) s) stations d) sid
      = Some st ->
    dict_get d sid = Some st \/ (In st stations /\ s_id st = sid).
Proof.
  induction stations as [| s stations IH]; intros d sid st; cbn; [auto |].
  intros H. apply IH in H as [H | [Hin Hid]]; [| auto].
  destruct (String.eqb_spec (s_id s) sid) as [<- | Hne].
  - rewrite dict_get_set_eq in H. injection H as <-. auto.
  - rewrite dict_get_set_ne in H by assumption. auto.
Qed.

Lemma lookup_fold_keys (stations : list station) :
  forall (d : dict station) (sid : string),
    In sid (List.map fst d) \/ In sid (List.map s_id stations) ->
    In sid (List.map fst
              (fold_left (fun d s => dict_set d (s_id s) s) stations d)).
Proof.
  induction stations as [| s stations IH]; intros d sid; cbn.
  - intros [H | []]. exact H.
  - intros H. apply IH. rewrite dict_set_keys. intuition.
Qed.

(** Every station id is in the lookup, under a station of that id. *)
Lemma station_lookup_get (stations : list station) (sid : string) :
  In sid (List.map s_id stations) ->
  exists st, dict_get (fst (build_station_lookup stations)) sid = Some st /\
             In st stations /\ s_id st = sid.
Proof.
  intros Hin. rewrite build_station_lookup_fst.
  destruct (dict_get_in_keys
              (fold_left (fun d s => dict_set d (s_id s) s) stations [])
              sid) as [st Hst].
  { apply lookup_fold_keys. now right. }
  exists st. split; [exact Hst |].
  apply lookup_fold_get in Hst as [Hst | Hst]; [discriminate | exact Hst].
Qed.

(** ** The inner loop *)

Section Assign.

Variable float_of_string : string -> option Q.
Variable int_of_string : string -> option Z.

Local Abbreviation move_to := (move_to float_of_string).
Local Abbreviation rank_action := (rank_action float_of_string).
Local Abbreviation assign_one := (assign_one float_of_string).
Local Abbreviation type_action :=
  (type_action float_of_string int_of_string).
Local Abbreviation assign_type :=
  (assign_type float_of_string int_of_string).
Local Abbreviation assign_vehicles_to_stations :=
  (assign_vehicles_to_stations float_of_string int_of_string).
Local Abbreviation compute_station_weights :=
  (compute_station_weights float_of_string int_of_string).

Lemma assign_one_alter (station_lookup : dict station)
    (cycle : list string) (fleet : list vehicle) (i k : nat) :
  assign_one station_lookup cycle fleet (i, k) =
  alter (rank_action station_lookup cycle i) k fleet.
Proof.
  unfold Allocation.assign_one, Allocation.rank_action.
  destruct (nth_error cycle (i mod List.length cycle)) as [sid |];
    [| now rewrite list_alter_id].
  destruct (dict_get station_lookup sid) as [st |];
    [reflexivity | now rewrite list_alter_id].
Qed.

Lemma fold_assign_one_lookup (station_lookup : dict station)
    (cycle : list string) (vlist : list nat) :
  forall (i0 : nat) (fleet : list vehicle) (k : nat),
    NoDup vlist ->
    fold_left (assign_one station_lookup cycle)
              (enumerate_from i0 vlist) fleet !! k =
    match index_of k vlist with
    | Some j => rank_action station_lookup cycle (i0 + j) <$> fleet !! k
    | None => fleet !! k
    end.
Proof.
  induction vlist as [| k' vlist IH]; intros i0 fleet k Hnd;
    cbn [enumerate_from fold_left index_of]; [reflexivity |].
  apply NoDup_cons in Hnd as [Hk' Hnd].
  rewrite IH by assumption. rewrite assign_one_alter.
  destruct (Nat.eqb_spec k' k) as [-> | Hne].
  - assert (E : index_of k vlist = None).
    { apply index_of_None. now rewrite <- list_elem_of_In. }
    rewrite E, list_lookup_alter_eq. now rewrite Nat.add_0_r.
  - rewrite list_lookup_alter_ne by assumption.
    destruct (index_of k vlist) as [j |]; cbn; [| reflexivity].
    now rewrite Nat.add_succ_r.
Qed.

Lemma type_action_outside (stations : list station) (factor_row : factor)
    (vtype : string) (vlist : list nat) (k : nat) (v : vehicle) :
  index_of k vlist = None ->
  type_action stations factor_row vtype vlist k v = v.
Proof.
  intros E. unfold Allocation.type_action. rewrite E.
  destruct (compute_station_weights stations factor_row vtype);
    [reflexivity |].
  destruct (weighted_station_ids _); reflexivity.
Qed.

Lemma assign_type_lookup (stations : list station) (factor_row : factor)
    (fleet : list vehicle) (vtype : string) (vlist : list nat) (k : nat) :
  NoDup vlist ->
  assign_type stations factor_row (fst (build_station_lookup stations))
              fleet (vtype, vlist) !! k =
  type_action stations factor_row vtype vlist k <$> fleet !! k.
Proof.
  intros Hnd.
  assert (Hid : forall f : vehicle -> vehicle,
             (forall v, f v = v) -> fleet !! k = f <$> fleet !! k).
  { intros f Hf. destruct (fleet !! k); cbn; now rewrite ?Hf. }
  unfold Allocation.assign_type.
  destruct vlist as [| k0 vlist0] eqn:Evl.
  { apply Hid. intros v. now apply type_action_outside. }
  rewrite <- Evl in *. clear Evl.
  unfold Allocation.type_action.
  destruct (compute_station_weights stations factor_row vtype)
    as [| kw weights]; [now apply Hid |].
  destruct (weighted_station_ids (kw :: weights)) as [| sid cycle];
    [now apply Hid |].
  unfold enumerate. rewrite fold_assign_one_lookup by assumption.
  destruct (index_of k vlist); [reflexivity | now apply Hid].
Qed.

(** ** The whole pass, one vehicle at a time *)

Lemma assign_lookup (vehicles : list vehicle) (stations : list station)
    (factor_row : factor) (k : nat) :
  assign_vehicles_to_stations vehicles stations factor_row !! k =
  (fun v =>
     type_action stations factor_row "fire"
       (type_indices vehicles "fire") k
       (type_action stations factor_row "police"
          (type_indices vehicles "police") k
          (type_action stations factor_row "ambulance"
             (type_indices vehicles "ambulance") k v)))
  <$> vehicles !! k.
Proof.
  unfold Allocation.assign_vehicles_to_stations. cbv zeta.
  rewrite vehicles_by_type_eq. cbn [fold_left].
  rewrite !assign_type_lookup by apply type_indices_NoDup.
  destruct (vehicles !! k); reflexivity.
Qed.

Lemma index_of_other_type (vehicles : list vehicle) (k : nat)
    (v : vehicle) (t : string) :
  vehicles !! k = Some v -> PyStr.normalize (v_type v) <> t ->
  index_of k (type_indices vehicles t) = None.
Proof.
  intros Hk Hne. apply index_of_None. rewrite type_indices_in.
  intros [v' [Hv' Ht]]. congruence.
Qed.

(** A vehicle is visited by the pass of its own type only. *)
Lemma assign_lookup_type (vehicles : list vehicle)
    (stations : list station) (factor_row : factor) (k : nat)
    (v : vehicle) :
  vehicles !! k = Some v ->
  assign_vehicles_to_stations vehicles stations factor_row !! k =
  Some (if bool_decide (PyStr.normalize (v_type v) ∈ known_types)
        then type_action stations factor_row
               (PyStr.normalize (v_type v))
               (type_indices vehicles (PyStr.normalize (v_type v))) k v
        else v).
Proof.
  intros Hk. rewrite assign_lookup, Hk. cbn [fmap option_fmap option_map].
  f_equal.
  set (t := PyStr.normalize (v_type v)).
  destruct (decide (t = "ambulance")) as [Ea | Na];
    [| rewrite (type_action_outside _ _ "ambulance")
         by (now apply (index_of_other_type vehicles k v))];
  (destruct (decide (t = "police")) as [Ep | Np];
    [| rewrite (type_action_outside _ _ "police")
         by (now apply (index_of_other_type vehicles k v))]);
  (destruct (decide (t = "fire")) as [Ef | Nf];
    [| rewrite (type_action_outside _ _ "fire")
         by (now apply (index_of_other_type vehicles k v))]);
  try congruence.
  - rewrite Ea. reflexivity.
  - rewrite Ep. reflexivity.
  - rewrite Ef. reflexivity.
  - rewrite bool_decide_eq_false_2; [reflexivity |].
    unfold known_types. rewrite !elem_of_cons, elem_of_nil. tauto.
Qed.

End Assign.

Lemma dict_get_not_in_keys {V : Type} (d : dict V) (k : string) :
  ~ In k (List.map fst d) -> dict_get d k = None.
Proof.
  induction d as [| [k' x'] d IH]; cbn; [reflexivity |].
  intros Hnin. destruct (String.eqb_spec k' k) as [-> | Hne].
  - exfalso. apply Hnin. now left.
  - apply IH. intros Hin. apply Hnin. now right.
Qed.

Lemma omap_keys {V : Type} (g : station -> option V) (stations : list station)
    (k : string) :
  In k (List.map fst
          (omap (fun s => option_map (fun w => (s_id s, w)) (g s)) stations)) ->
  In k (List.map s_id stations).
Proof.
  induction stations as [| s stations IH]; cbn; [auto |].
  destruct (g s); cbn; [intros [H | H] |]; auto.
Qed.

Lemma dict_get_omap {V : Type} (g : station -> option V)
    (stations : list station) (s : station) :
  NoDup (List.map s_id stations) -> In s stations ->
  dict_get (omap (fun s => option_map (fun w => (s_id s, w)) (g s)) stations)
           (s_id s) = g s.
Proof.
  induction stations as [| s0 stations IH]; cbn; [contradiction |].
  intros Hnd Hin. apply NoDup_cons in Hnd as [Hs0 Hnd].
  rewrite list_elem_of_In in Hs0.
  destruct Hin as [-> | Hin].
  - destruct (g s) as [w |]; cbn.
    + now rewrite String.eqb_refl.
    + apply dict_get_not_in_keys. intros Hk. apply Hs0.
      eapply omap_keys. exact Hk.
  - assert (Hne : s_id s0 <> s_id s).
    { intros E. apply Hs0. rewrite E. now apply in_map. }
    destruct (g s0) as [w |]; cbn.
    + destruct (String.eqb_spec (s_id s0) (s_id s)); [contradiction |].
      now apply IH.
    + now apply IH.
Qed.

Lemma flat_map_omap_weights (g : station -> option Z)
    (stations : list station) :
  flat_map (fun kv : string * Z => repeat (fst kv) (Z.to_nat (snd kv)))
    (omap (fun s => option_map (fun w => (s_id s, w)) (g s)) stations) =
  flat_map (fun s => repeat (s_id s) (Z.to_nat (default 0%Z (g s)))) stations.
Proof.
  induction stations as [| s stations IH]; cbn; [reflexivity |].
  destruct (g s) as [w |]; cbn; now rewrite IH.
Qed.

Lemma nth_error_mod_Some {A : Type} (l : list A) (i : nat) :
  l <> [] -> exists x, nth_error l (i mod List.length l) = Some x /\ In x l.
Proof.
  intros Hne.
  assert (Hlt : i mod List.length l < List.length l).
  { apply Nat.mod_upper_bound. destruct l; [contradiction | cbn; lia]. }
  destruct (nth_error l (i mod List.length l)) as [x |] eqn:E.
  - exists x. split; [reflexivity |]. eapply nth_error_In. exact E.
  - apply nth_error_None in E. lia.
Qed.

Section Rebalance.

Variable float_of_string : string -> option Q.
Variable int_of_string : string -> option Z.

Local Abbreviation move_to := (move_to float_of_string).
Local Abbreviation parse_cell := (parse_cell float_of_string).
Local Abbreviation rank_action := (rank_action float_of_string).
Local Abbreviation type_action :=
  (type_action float_of_string int_of_string).
Local Abbreviation assign_vehicles_to_stations :=
  (assign_vehicles_to_stations float_of_string int_of_string).
Local Abbreviation compute_station_weights :=
  (compute_station_weights float_of_string int_of_string).
Local Abbreviation factor_weight :=
  (factor_weight float_of_string int_of_string).
Local Abbreviation visit := (visit float_of_string int_of_string).

(** *** What one visit changes *)

Ltac case_move :=
  unfold Allocation.move_to;
  repeat match goal with
  | |- context [Allocation.parse_cell ?f ?x] =>
      destruct (Allocation.parse_cell f x)
  end.

Ltac case_rank :=
  unfold Allocation.rank_action;
  repeat match goal with
  | |- context [nth_error ?c ?n] => destruct (nth_error c n)
  | |- context [dict_get ?d ?k] => destruct (dict_get d k)
  end;
  case_move.

Ltac case_type :=
  unfold Allocation.type_action;
  repeat match goal with
  | |- context [Allocation.compute_station_weights ?a ?b ?c ?d ?e] =>
      destruct (Allocation.compute_station_weights a b c d e)
  | |- context [weighted_station_ids ?w] =>
      destruct (weighted_station_ids w)
  | |- context [index_of ?k ?l] => destruct (index_of k l)
  end.

Lemma rank_action_frame (station_lookup : dict station)
    (cycle : list string) (i : nat) (v : vehicle) :
  let v' := rank_action station_lookup cycle i v in
  v_id v' = v_id v /\ v_type v' = v_type v /\ v_status v' = v_status v.
Proof. cbv zeta. case_rank; repeat split. Qed.

Lemma rank_action_idem (station_lookup : dict station)
    (cycle : list string) (i : nat) (v : vehicle) :
  rank_action station_lookup cycle i
    (rank_action station_lookup cycle i v)
  = rank_action station_lookup cycle i v.
Proof. case_rank; reflexivity. Qed.

Lemma rank_action_set_status (station_lookup : dict station)
    (cycle : list string) (i : nat) (st : string) (v : vehicle) :
  rank_action station_lookup cycle i (set_status st v)
  = set_status st (rank_action station_lookup cycle i v).
Proof. case_rank; reflexivity. Qed.

Lemma type_action_frame (stations : list station) (factor_row : factor)
    (vtype : string) (vlist : list nat) (k : nat) (v : vehicle) :
  let v' := type_action stations factor_row vtype vlist k v in
  v_id v' = v_id v /\ v_type v' = v_type v /\ v_status v' = v_status v.
Proof.
  cbv zeta. case_type; try (repeat split; fail).
  apply rank_action_frame.
Qed.

Lemma type_action_idem (stations : list station) (factor_row : factor)
    (vtype : string) (vlist : list nat) (k : nat) (v : vehicle) :
  type_action stations factor_row vtype vlist k
    (type_action stations factor_row vtype vlist k v)
  = type_action stations factor_row vtype vlist k v.
Proof. case_type; try reflexivity. apply rank_action_idem. Qed.

Lemma type_action_set_status (stations : list station)
    (factor_row : factor) (vtype : string) (vlist : list nat) (k : nat)
    (st : string) (v : vehicle) :
  type_action stations factor_row vtype vlist k (set_status st v)
  = set_status st (type_action stations factor_row vtype vlist k v).
Proof. case_type; try reflexivity. apply rank_action_set_status. Qed.

Lemma assign_lookup_visit (vehicles : list vehicle)
    (stations : list station) (factor_row : factor) (k : nat) :
  assign_vehicles_to_stations vehicles stations factor_row !! k =
  visit vehicles stations factor_row k <$> vehicles !! k.
Proof.
  destruct (vehicles !! k) as [v |] eqn:Hk.
  - now rewrite (assign_lookup_type _ _ _ _ _ _ v Hk).
  - rewrite assign_lookup, Hk. reflexivity.
Qed.

Lemma visit_frame (vehicles : list vehicle) (stations : list station)
    (factor_row : factor) (k : nat) (v : vehicle) :
  let v' := visit vehicles stations factor_row k v in
  v_id v' = v_id v /\ v_type v' = v_type v /\ v_status v' = v_status v.
Proof.
  cbv zeta. unfold Allocation.visit. case_bool_decide; [| repeat split].
  apply type_action_frame.
Qed.

Lemma assign_types (vehicles : list vehicle) (stations : list station)
    (factor_row : factor) :
  List.map v_type
    (assign_vehicles_to_stations vehicles stations factor_row)
  = List.map v_type vehicles.
Proof.
  apply list_eq. intros k. rewrite !lookup_map, assign_lookup_visit.
  destruct (vehicles !! k) as [v |]; cbn; [| reflexivity].
  f_equal. apply visit_frame.
Qed.

Lemma visit_types (vehicles vehicles' : list vehicle)
    (stations : list station) (factor_row : factor) (k : nat)
    (v : vehicle) :
  List.map v_type vehicles = List.map v_type vehicles' ->
  visit vehicles stations factor_row k v
  = visit vehicles' stations factor_row k v.
Proof.
  intros E. unfold Allocation.visit, type_indices.
  now rewrite (type_indices_from_types _ vehicles vehicles' 0 E).
Qed.


(** C8.  Running the pass on its own output, with the same stations
    and scenario, changes nothing. *)
Theorem assign_vehicles_to_stations_idempotent (vehicles : list vehicle)
    (stations : list station) (factor_row : factor) :
  assign_vehicles_to_stations
    (assign_vehicles_to_stations vehicles stations factor_row)
    stations factor_row
  = assign_vehicles_to_stations vehicles stations factor_row.
Proof.
  apply list_eq. intros k. rewrite assign_lookup_visit.
  rewrite assign_lookup_visit.
  destruct (vehicles !! k) as [v |]; cbn; [| reflexivity]. f_equal.
  rewrite (visit_types _ vehicles) by apply assign_types.
  unfold Allocation.visit at 2. case_bool_decide as Hknown.
  - unfold Allocation.visit.
    destruct (type_action_frame stations factor_row
                (PyStr.normalize (v_type v))
                (type_indices vehicles (PyStr.normalize (v_type v))) k v)
      as [_ [Ety _]].
    rewrite Ety, bool_decide_eq_true_2 by assumption.
    apply type_action_idem.
  - unfold Allocation.visit. now rewrite bool_decide_eq_false_2.
Qed.

(** *** Statuses *)

Lemma restatus_from_lookup (f : nat -> string) (vehicles : list vehicle) :
  forall i k,
    restatus_from i f vehicles !! k
    = (fun v => set_status (f (i + k)) v) <$> vehicles !! k.
Proof.
  induction vehicles as [| v rest IH]; intros i [| k]; cbn;
    try reflexivity.
  - now rewrite Nat.add_0_r.
  - rewrite IH. now rewrite Nat.add_succ_r.
Qed.

Lemma restatus_lookup (f : nat -> string) (vehicles : list vehicle)
    (k : nat) :
  restatus f vehicles !! k = set_status (f k) <$> vehicles !! k.
Proof. apply (restatus_from_lookup f vehicles 0 k). Qed.

Lemma restatus_types (f : nat -> string) (vehicles : list vehicle) :
  List.map v_type (restatus f vehicles) = List.map v_type vehicles.
Proof.
  apply list_eq. intros k. rewrite !lookup_map, restatus_lookup.
  destruct (vehicles !! k); reflexivity.
Qed.

(** C1, as amended.  The pass never reads or writes a status: every
    vehicle keeps its status, and replacing the statuses of the fleet
    before the pass gives the same result as replacing them after
    it, so a busy vehicle is moved exactly as an available one is. *)
Theorem assign_vehicles_to_stations_ignores_status
    (vehicles : list vehicle) (stations : list station)
    (factor_row : factor) :
  List.map v_status
    (assign_vehicles_to_stations vehicles stations factor_row)
  = List.map v_status vehicles /\
  forall f : nat -> string,
    assign_vehicles_to_stations (restatus f vehicles) stations factor_row
    = restatus f
        (assign_vehicles_to_stations vehicles stations factor_row).
Proof.
  split.
  - apply list_eq. intros k. rewrite !lookup_map, assign_lookup_visit.
    destruct (vehicles !! k) as [v |]; cbn; [| reflexivity].
    f_equal. apply visit_frame.
  - intros f. apply list_eq. intros k.
    rewrite restatus_lookup, !assign_lookup_visit, restatus_lookup.
    destruct (vehicles !! k) as [v |]; cbn; [| reflexivity]. f_equal.
    rewrite (visit_types _ vehicles) by apply restatus_types.
    unfold Allocation.visit. cbn [set_status v_type].
    case_bool_decide; [| reflexivity].
    apply type_action_set_status.
Qed.

End Rebalance.

Section RoundRobin.

Variable float_of_string : string -> option Q.
Variable int_of_string : string -> option Z.

Local Abbreviation parse_cell := (parse_cell float_of_string).
Local Abbreviation assign_vehicles_to_stations :=
  (assign_vehicles_to_stations float_of_string int_of_string).
Local Abbreviation compute_station_weights :=
  (compute_station_weights float_of_string int_of_string).
Local Abbreviation factor_weight :=
  (factor_weight float_of_string int_of_string).

Lemma cycle_in_station_order (stations : list station)
    (factor_row : factor) (vtype : string) :
  NoDup (List.map s_id stations) ->
  let weights := compute_station_weights stations factor_row vtype in
  weighted_station_ids weights =
  flat_map
    (fun s => repeat (s_id s)
                (Z.to_nat (default 0%Z (dict_get weights (s_id s)))))
    stations.
Proof.
  intros Hnd. cbv zeta.
  rewrite weighted_station_ids_flat.
  rewrite (compute_station_weights_nodup _ _ _ _ _ Hnd).
  rewrite flat_map_omap_weights.
  assert (Hext : forall l : list station,
             (forall s, In s l -> In s stations) ->
             flat_map
               (fun s => repeat (s_id s)
                  (Z.to_nat (default 0%Z
                               (factor_weight factor_row vtype s)))) l =
             flat_map
               (fun s => repeat (s_id s)
                  (Z.to_nat (default 0%Z
                     (dict_get
                        (omap (fun s => option_map (fun w => (s_id s, w))
                                 (factor_weight factor_row vtype s))
                              stations)
                        (s_id s))))) l).
  { induction l as [| s l IH]; intros Hl; cbn; [reflexivity |].
    rewrite dict_get_omap by (auto; apply Hl; now left).
    rewrite IH; [reflexivity |]. intros s' Hs'. apply Hl. now right. }
  apply Hext. auto.
Qed.

Lemma weights_nonempty_cycle (stations : list station)
    (factor_row : factor) (vtype : string) :
  compute_station_weights stations factor_row vtype <> [] ->
  weighted_station_ids
    (compute_station_weights stations factor_row vtype) <> [].
Proof.
  intros Hne. rewrite weighted_station_ids_flat.
  destruct (compute_station_weights stations factor_row vtype)
    as [| [sid w] weights] eqn:E; [contradiction |].
  assert (Hw : (0 < w)%Z).
  { assert (Hin : In (sid, w)
                    (compute_station_weights stations factor_row vtype))
      by (rewrite E; now left).
    revert Hin. unfold Allocation.compute_station_weights. cbv zeta.
    intros Hin. change w with (snd (sid, w)).
    eapply weights_fold_pos; [| exact Hin]. intros kw' []. }
  cbn. destruct (Z.to_nat w) eqn:Ew; [lia | discriminate].
Qed.

Lemma type_action_rank (stations : list station) (factor_row : factor)
    (vtype : string) (vlist : list nat) (k i : nat) (v : vehicle) :
  compute_station_weights stations factor_row vtype <> [] ->
  index_of k vlist = Some i ->
  type_action float_of_string int_of_string stations factor_row vtype
    vlist k v
  = rank_action float_of_string (fst (build_station_lookup stations))
      (weighted_station_ids
         (compute_station_weights stations factor_row vtype)) i v.
Proof.
  intros Hne Hi. pose proof (weights_nonempty_cycle _ _ _ Hne) as Hc.
  unfold type_action. rewrite Hi.
  destruct (compute_station_weights stations factor_row vtype);
    [contradiction |].
  destruct (weighted_station_ids _); [contradiction | reflexivity].
Qed.

Lemma units_of_kind (vehicles : list vehicle) (t : vehicle_kind)
    (units : list nat) :
  dict_get (vehicles_by_type vehicles) (kind_name t) = Some units ->
  units = type_indices vehicles (kind_name t).
Proof.
  rewrite vehicles_by_type_eq. destruct t; cbn; congruence.
Qed.


End RoundRobin.

(** ** choose_factor_scenario *)

Section Scenario.

Variable float_of_string : string -> option Q.

Local Abbreviation volume :=
  (fun r : factor => safe_float float_of_string (f_expected_call_volume r)).

Lemma Qlt_bool_true (x y : Q) : Qlt_bool x y = true <-> (x < y)%Q.
Proof.
  unfold Qlt_bool. rewrite negb_true_iff.
  destruct (Qle_bool y x) eqn:E.
  - apply Qle_bool_iff in E. split; [discriminate | lra].
  - split; [intros _ | reflexivity].
    apply Qnot_le_lt. intros H. apply Qle_bool_iff in H. congruence.
Qed.

Lemma max_fold_first_largest {A : Type} (key : A -> Q) (l : list A) :
  forall (seen : list A) (i : nat) (b : A),
    first_largest key seen i b ->
    exists i',
      first_largest key (seen ++ l) i'
        (fold_left
           (fun best r => if Qlt_bool (key best) (key r) then r else best)
           l b).
Proof.
  induction l as [| r l IH]; intros seen i b Hb; cbn [fold_left].
  - exists i. now rewrite app_nil_r.
  - assert (Hstep : exists i1,
               first_largest key (seen ++ [r]) i1
                 (if Qlt_bool (key b) (key r) then r else b)).
    { destruct Hb as [Hi Hmax].
      pose proof (lookup_lt_Some _ _ _ Hi) as Hlen.
      destruct (Qlt_bool (key b) (key r)) eqn:E.
      - apply Qlt_bool_true in E. exists (length seen). split.
        + rewrite lookup_app_r by lia. now rewrite Nat.sub_diag.
        + intros j c Hj.
          destruct (decide (j < length seen)) as [Hjl | Hjl].
          * rewrite lookup_app_l in Hj by assumption.
            destruct (Hmax j c Hj) as [Hle _]. split; intros; lra.
          * rewrite lookup_app_r in Hj by lia.
            destruct (j - length seen) eqn:Ej; cbn in Hj;
              [| discriminate].
            injection Hj as <-. split; [lra | lia].
      - assert (Hle : (key r <= key b)%Q).
        { apply Qnot_lt_le. intros H. apply Qlt_bool_true in H.
          congruence. }
        exists i. split.
        + now rewrite lookup_app_l.
        + intros j c Hj.
          destruct (decide (j < length seen)) as [Hjl | Hjl].
          * rewrite lookup_app_l in Hj by assumption. now apply Hmax.
          * rewrite lookup_app_r in Hj by lia.
            destruct (j - length seen) eqn:Ej; cbn in Hj;
              [| discriminate].
            injection Hj as <-. split; [exact Hle | lia]. }
    destruct Hstep as [i1 H1].
    destruct (IH (seen ++ [r]) i1 _ H1) as [i' H'].
    exists i'. now rewrite <- app_assoc in H'.
Qed.

Lemma py_max_first_largest {A : Type} (key : A -> Q) (l : list A) :
  l <> [] -> exists i b, py_max key l = Ok b /\ first_largest key l i b.
Proof.
  destruct l as [| x l]; [contradiction | intros _].
  destruct (max_fold_first_largest key l [x] 0 x) as [i Hi].
  - split; [reflexivity |].
    intros [| j] r Hj; cbn in Hj; [| discriminate].
    injection Hj as <-. split; [lra | lia].
  - eexists i, _. split; [reflexivity | exact Hi].
Qed.

Lemma find_scenario_none (factors : list factor) (sid : string) :
  (forall row, In row factors -> f_id row <> sid) ->
  find_scenario factors sid = None.
Proof.
  induction factors as [| row rest IH]; intros H; cbn; [reflexivity |].
  destruct (String.eqb_spec (f_id row) sid) as [E | _].
  - exfalso. apply (H row); [now left | exact E].
  - apply IH. intros r Hr. apply H. now right.
Qed.


End Scenario.

(** ** Worked examples *)

Section Examples.

Import Demo.

Local Abbreviation weights_of :=
  (compute_station_weights Decimal.float_of_string Decimal.int_of_string).
Local Abbreviation rebalance :=
  (assign_vehicles_to_stations Decimal.float_of_string
     Decimal.int_of_string).

Lemma demo_station_ids : NoDup (List.map s_id stations).
Proof. apply (bool_decide_unpack _). reflexivity. Qed.

Lemma demo_positions (st : station) :
  In st stations ->
  exists la lo,
    parse_cell Decimal.float_of_string (s_lat st) = Some la /\
    parse_cell Decimal.float_of_string (s_lon st) = Some lo.
Proof.
  intros [<- | [<- | []]]; eexists _, _; split; vm_compute; reflexivity.
Qed.

(** The example of the specification: capacity 3 in the hot region
    with volume 1.0 weighs 6, capacity 3 elsewhere weighs 3, and of
    nine ambulances six go to the first station and three to the
    other. *)
Example demo_weights :
  weights_of stations scenario "ambulance" = [("S1", 6%Z); ("S2", 3%Z)].
Proof. vm_compute. reflexivity. Qed.

Example demo_assignment :
  List.map v_station_id (rebalance fleet stations scenario) =
  [Some "S1"; Some "S1"; Some "S1"; Some "S1"; Some "S1"; Some "S1";
   Some "S2"; Some "S2"; Some "S2"; None].
Proof. vm_compute. reflexivity. Qed.





(** A busy ambulance is moved: the first vehicle of the fleet is busy
    and leaves the pass at the position of station S1, with S1 as its
    station. *)
Lemma busy_unit_moved_counterexample :
  exists v v' : vehicle,
    fleet !! 0 = Some v /\ v_status v = "busy" /\
    rebalance fleet stations scenario !! 0 = Some v' /\
    v_lat v' <> v_lat v /\ v_lon v' <> v_lon v /\
    v_station_id v' <> v_station_id v.
Proof.
  eexists _, _. split; [reflexivity |]. split; [reflexivity |].
  split; [vm_compute; reflexivity |].
  cbn. repeat split; discriminate.
Qed.



End Examples.

End AllocationProofs.

(** * Further properties of the dispatcher *)

Module BackendExtra.

Import Backend.
Import BackendProofs.
Import Dispatch.
Local Open Scope R_scope.

(** ** The range of the distance *)

Lemma atan2_le_half_PI (y x : R) : 0 <= y -> 0 <= x -> atan2 y x <= PI / 2.
Proof.
  intros Hy Hx. unfold atan2. pose proof PI_RGT_0 as Hpi.
  destruct (Rlt_dec 0 x) as [Hpos | _].
  - left. apply atan_bound.
  - destruct (Rlt_dec x 0); [lra |].
    destruct (Rlt_dec 0 y); [lra |].
    destruct (Rlt_dec y 0); lra.
Qed.


Lemma sin_sq_shift (x : R) : sin (x - PI) ^ 2 = sin x ^ 2.
Proof. rewrite sin_minus, cos_PI, sin_PI. ring. Qed.

Lemma sin_sq_shift_plus (x : R) : sin (x + PI) ^ 2 = sin x ^ 2.
Proof. rewrite neg_sin. ring. Qed.

Lemma cos_turn (x : R) : cos (x + 2 * PI) = cos x.
Proof. rewrite cos_plus, cos_2PI, sin_2PI. ring. Qed.

Lemma radians_360 (x : R) : radians (x + 360) = radians x + 2 * PI.
Proof. unfold radians. field. Qed.

Lemma hav_a_turn (lat1 lon1 lat2 lon2 : R) :
  hav_a (lat1 + 360) lon1 lat2 lon2 = hav_a lat1 lon1 lat2 lon2 /\
  hav_a lat1 (lon1 + 360) lat2 lon2 = hav_a lat1 lon1 lat2 lon2 /\
  hav_a lat1 lon1 (lat2 + 360) lon2 = hav_a lat1 lon1 lat2 lon2 /\
  hav_a lat1 lon1 lat2 (lon2 + 360) = hav_a lat1 lon1 lat2 lon2.
Proof.
  unfold hav_a. cbv zeta. repeat split.
  - replace (radians (lat2 - (lat1 + 360)) / 2)
      with (radians (lat2 - lat1) / 2 - PI) by (unfold radians; field).
    now rewrite sin_sq_shift, radians_360, cos_turn.
  - replace (radians (lon2 - (lon1 + 360)) / 2)
      with (radians (lon2 - lon1) / 2 - PI) by (unfold radians; field).
    now rewrite sin_sq_shift.
  - replace (radians (lat2 + 360 - lat1) / 2)
      with (radians (lat2 - lat1) / 2 + PI) by (unfold radians; field).
    now rewrite sin_sq_shift_plus, radians_360, cos_turn.
  - replace (radians (lon2 + 360 - lon1) / 2)
      with (radians (lon2 - lon1) / 2 + PI) by (unfold radians; field).
    now rewrite sin_sq_shift_plus.
Qed.


(** ** What a request can do to the table *)

Lemma closest_Some_in (lat lon : R) (candidates : list vehicle)
    (b : vehicle) (m : option R) :
  closest lat lon candidates = Ok (Some b, m) -> In b candidates.
Proof.
  destruct candidates as [| c l] eqn:E; [discriminate |].
  rewrite <- E. intros H.
  destruct (closest_first_closest lat lon candidates) as [i [b' [Hc [Hi _]]]];
    [now rewrite E |].
  rewrite Hc in H. injection H as <- _.
  apply list_elem_of_In. eapply list_elem_of_lookup_2. exact Hi.
Qed.

Lemma select_available_In (db : list vehicle) (req_type : string)
    (c : vehicle) :
  In c (select_available db req_type) <->
  In c db /\ v_type c = req_type /\ v_status c = "available"%string.
Proof.
  unfold select_available. rewrite filter_In, andb_true_iff.
  now rewrite !String.eqb_eq.
Qed.

Section Outcome.

Variable float_of_string : string -> option R.

Local Abbreviation request_unit := (request_unit float_of_string).
Local Abbreviation serve := (serve float_of_string).

Lemma request_unit_assigned (db db' : list vehicle) (data : request)
    (u : string) (from to : R * R) :
  request_unit db data = (Assigned u from to, db') ->
  exists best : vehicle,
    In best db /\ v_id best = u /\
    v_type best = PyStr.normalize (r_type data) /\
    v_status best = "available"%string /\
    from = (v_lat best, v_lon best) /\
    parse_location float_of_string (r_location data) = Ok to /\
    db' = update_busy db u.
Proof.
  unfold Backend.request_unit. cbv zeta.
  destruct (truthy (r_location data)); cbn [negb]; [| discriminate].
  destruct (py_len (r_location data)) as [n | e]; [| discriminate].
  destruct (Nat.eqb n 2); cbn [negb]; [| discriminate].
  destruct (parse_location float_of_string (r_location data))
    as [[lat lon] | e] eqn:Hloc; [| destruct e; discriminate].
  destruct (select_available db (PyStr.normalize (r_type data)))
    as [| c l] eqn:Hsel; [discriminate |].
  rewrite <- Hsel.
  destruct (closest lat lon _) as [[[best |] m] | e] eqn:Hc;
    [| discriminate | discriminate].
  intros [= <- <- <- <-].
  apply closest_Some_in, select_available_In in Hc as [Hin [Hty Hst]].
  exists best. repeat split; assumption.
Qed.

Lemma request_unit_table (db : list vehicle) (data : request) :
  snd (request_unit db data) = db \/
  exists u from to,
    request_unit db data = (Assigned u from to, update_busy db u).
Proof.
  destruct (request_unit db data) as [r db'] eqn:E.
  destruct r as [msg | msg | e | u from to].
  4: { right. exists u, from, to.
       destruct (request_unit_assigned _ _ _ _ _ _ E)
         as [b [_ [_ [_ [_ [_ [_ ->]]]]]]]. reflexivity. }
  all: left; revert E; unfold Backend.request_unit; cbv zeta;
    destruct (truthy (r_location data)); cbn [negb];
    [| now intros [= _ <-]];
    (destruct (py_len (r_location data)) as [n | e']; [| now intros [= _ <-]]);
    (destruct (Nat.eqb n 2); cbn [negb]; [| now intros [= _ <-]]);
    (destruct (parse_location float_of_string (r_location data))
       as [[lat lon] | e']; [| destruct e'; now intros [= _ <-]]);
    (destruct (select_available db (PyStr.normalize (r_type data)))
       as [| c l]; [now intros [= _ <-] |]);
    (destruct (closest lat lon _) as [[[best |] m] | e'];
       [discriminate | now intros [= _ <-] | now intros [= _ <-]]).
Qed.


(** ** A unit is sent once *)

Lemma update_busy_In (db : list vehicle) (u : string) (v' : vehicle) :
  In v' (update_busy db u) ->
  exists v, In v db /\ v_id v' = v_id v /\
            (v' = v \/ (v_id v = u /\ v_status v' = "busy"%string)).
Proof.
  unfold update_busy. rewrite in_map_iff. intros [v [Hv Hin]].
  exists v. split; [exact Hin |].
  destruct (String.eqb_spec (v_id v) u) as [Hu | Hu]; subst v'; cbn; auto.
Qed.

Lemma update_busy_all_busy (db : list vehicle) (u : string) :
  all_busy (update_busy db u) u.
Proof.
  intros v' Hin Hid. unfold update_busy in Hin.
  apply in_map_iff in Hin as [v [Hv Hin]].
  destruct (String.eqb_spec (v_id v) u) as [Hu | Hu]; subst v';
    [reflexivity | contradiction].
Qed.

Lemma update_busy_keeps_busy (db : list vehicle) (u u' : string) :
  all_busy db u -> all_busy (update_busy db u') u.
Proof.
  intros Hb v' Hin Hid.
  apply update_busy_In in Hin as [v [Hin [Hidv [-> | [_ Hst]]]]].
  - now apply Hb.
  - exact Hst.
Qed.

Lemma request_unit_keeps_busy (db : list vehicle) (data : request)
    (u : string) :
  all_busy db u -> all_busy (snd (request_unit db data)) u.
Proof.
  intros Hb.
  destruct (request_unit_table db data) as [-> | [u' [from [to ->]]]];
    [exact Hb | now apply update_busy_keeps_busy].
Qed.

Lemma busy_not_assigned (db : list vehicle) (data : request) (u : string)
    (from to : R * R) :
  all_busy db u -> fst (request_unit db data) <> Assigned u from to.
Proof.
  intros Hb E.
  destruct (request_unit db data) as [r db'] eqn:Er. cbn in E. subst r.
  destruct (request_unit_assigned _ _ _ _ _ _ Er)
    as [best [Hin [Hid [_ [Hst _]]]]].
  rewrite (Hb best Hin Hid) in Hst. discriminate.
Qed.

Lemma serve_cons (db : list vehicle) (data : request) (rest : list request) :
  serve db (data :: rest) =
  (fst (request_unit db data)
     :: fst (serve (snd (request_unit db data)) rest),
   snd (serve (snd (request_unit db data)) rest)).
Proof.
  cbn [Dispatch.serve]. destruct (request_unit db data) as [r db1].
  cbn [fst snd]. now destruct (Dispatch.serve float_of_string db1 rest).
Qed.

Lemma serve_busy_not_assigned (reqs : list request) :
  forall (db : list vehicle) (u : string) (j : nat) (from to : R * R),
    all_busy db u ->
    fst (serve db reqs) !! j <> Some (Assigned u from to).
Proof.
  induction reqs as [| data rest IH]; intros db u j from to Hb.
  - cbn. now rewrite lookup_nil.
  - rewrite serve_cons. cbn [fst]. destruct j as [| j]; cbn.
    + intros [= E]. now apply (busy_not_assigned db data u from to).
    + apply IH. now apply request_unit_keeps_busy.
Qed.

(** However many requests are served, no unit is sent twice: two
    assignments in the responses never name the same unit. *)
Theorem serve_no_double_dispatch (reqs : list request) :
  forall (db : list vehicle) (i j : nat) (u u' : string)
         (from to from' to' : R * R),
    (i < j)%nat ->
    fst (serve db reqs) !! i = Some (Assigned u from to) ->
    fst (serve db reqs) !! j = Some (Assigned u' from' to') ->
    u <> u'.
Proof.
  induction reqs as [| data rest IH];
    intros db i j u u' from to from' to' Hij Hi Hj.
  - cbn in Hi. now rewrite lookup_nil in Hi.
  - rewrite serve_cons in Hi, Hj. cbn [fst] in Hi, Hj.
    destruct j as [| j]; [lia |]. cbn in Hj.
    destruct i as [| i]; cbn in Hi.
    + injection Hi as Hi. intros <-.
      apply (serve_busy_not_assigned rest
               (snd (request_unit db data)) u j from' to'); [| exact Hj].
      destruct (request_unit db data) as [r db1] eqn:E. cbn in Hi. subst r.
      destruct (request_unit_assigned _ _ _ _ _ _ E)
        as [_ [_ [_ [_ [_ [_ [_ ->]]]]]]].
      apply update_busy_all_busy.
    + apply (IH (snd (request_unit db data)) i j u u' from to from' to');
        [lia | assumption | assumption].
Qed.

(** ** Reset *)

Lemma reset_update_busy (db : list vehicle) (u : string) :
  reset_vehicles (update_busy db u) = reset_vehicles db.
Proof.
  unfold reset_vehicles, update_busy. rewrite List.map_map.
  apply List.map_ext. intros v. now destruct (String.eqb (v_id v) u).
Qed.

Lemma reset_request_unit (db : list vehicle) (data : request) :
  reset_vehicles (snd (request_unit db data)) = reset_vehicles db.
Proof.
  destruct (request_unit_table db data) as [-> | [u' [from [to ->]]]];
    [reflexivity | apply reset_update_busy].
Qed.

(** Whatever requests were served, the reset gives the table there was at
    the start with every unit available: the requests changed nothing
    but statuses. *)
Theorem reset_after_serve (db : list vehicle) (reqs : list request) :
  reset_vehicles (snd (serve db reqs)) = reset_vehicles db /\
  forall v, In v (reset_vehicles (snd (serve db reqs))) ->
            v_status v = "available"%string.
Proof.
  assert (H : reset_vehicles (snd (serve db reqs)) = reset_vehicles db).
  { revert db. induction reqs as [| data rest IH]; intros db;
      [reflexivity |].
    rewrite serve_cons. cbn [snd]. rewrite IH. apply reset_request_unit. }
  split; [exact H |]. rewrite H. unfold reset_vehicles.
  intros v Hin. apply in_map_iff in Hin as [v0 [<- _]]. reflexivity.
Qed.


(** ** Counting the available units *)

Lemma available_count_insert_busy (db : list vehicle) (kb : nat)
    (best : vehicle) :
  db !! kb = Some best -> v_status best = "available"%string ->
  (available_count (<[kb := set_status "busy" best]> db) + 1
   = available_count db)%nat.
Proof.
  intros Hkb Hst.
  pose proof (lookup_lt_Some _ _ _ Hkb) as Hlt.
  rewrite insert_take_drop by exact Hlt.
  rewrite <- (take_drop_middle db kb best Hkb) at 3.
  unfold available_count. rewrite !List.filter_app, !length_app.
  cbn [List.filter set_status v_status]. rewrite Hst. cbn. lia.
Qed.

(** With unique ids, an assignment takes exactly one unit out of the
    available ones. *)
Theorem request_unit_takes_one (db db' : list vehicle) (data : request)
    (u : string) (from to : R * R) :
  NoDup (List.map v_id db) ->
  request_unit db data = (Assigned u from to, db') ->
  (available_count db' + 1 = available_count db)%nat.
Proof.
  intros Hnd E.
  destruct (request_unit_assigned _ _ _ _ _ _ E)
    as [best [Hin [Hid [_ [Hst [_ [_ ->]]]]]]].
  apply list_elem_of_In, list_elem_of_lookup_1 in Hin as [kb Hkb].
  rewrite <- Hid, (update_busy_insert db kb best Hnd Hkb).
  now apply available_count_insert_busy.
Qed.

(** ** Locations the handler does not expect *)


End Outcome.

(** ** Worked examples *)

Example demo_serve_twice :
  serve no_float demo_db
    [demo_request "ambulance"; demo_request "ambulance"] =
  ([Assigned "A2" (0, 0) (0, 0); Assigned "A3" (0, 0) (0, 0)],
   [ row "A1" "ambulance" 1 1 "busy" "S1";
     row "A2" "ambulance" 0 0 "busy" "S1";
     row "A3" "ambulance" 0 0 "busy" "S2";
     row "P1" "police" 0 0 "busy" "S2" ]).
Proof.
  rewrite serve_cons, demo_tie_break. cbn [fst snd].
  rewrite serve_cons. cbn [serve fst snd].
  rewrite (request_unit_pair no_float _ (demo_request "ambulance")
             0 0 eq_refl).
  cbn [demo_request r_type]. cbv zeta.
  change (select_available _ (PyStr.normalize "ambulance"))
    with [row "A3" "ambulance" 0 0 "available" "S2"].
  unfold closest. cbn [fold_left]. unfold closest_step. cbn [bind].
  rewrite distance_km_value. reflexivity.
Qed.

Lemma serve_no_double_dispatch_witness :
  fst (serve no_float demo_db
         [demo_request "ambulance"; demo_request "ambulance"])
    = [Assigned "A2" (0, 0) (0, 0); Assigned "A3" (0, 0) (0, 0)] /\
  "A2"%string <> "A3"%string.
Proof.
  split; [now rewrite demo_serve_twice |].
  apply (serve_no_double_dispatch no_float
           [demo_request "ambulance"; demo_request "ambulance"]
           demo_db 0 1 "A2" "A3" (0, 0) (0, 0) (0, 0) (0, 0)).
  - lia.
  - now rewrite demo_serve_twice.
  - now rewrite demo_serve_twice.
Defined.


Lemma request_unit_takes_one_witness :
  (available_count
     [ row "A1" "ambulance" 1 1 "busy" "S1";
       row "A2" "ambulance" 0 0 "busy" "S1";
       row "A3" "ambulance" 0 0 "available" "S2";
       row "P1" "police" 0 0 "busy" "S2" ] + 1
   = available_count demo_db)%nat.
Proof.
  apply (request_unit_takes_one no_float demo_db _
           (demo_request "ambulance") "A2" (0, 0) (0, 0)).
  - exact demo_db_ids.
  - exact demo_tie_break.
Defined.


End BackendExtra.

(** * Normalisation of labels *)

Module PyStrFacts.

Import PyStr.
Import Trimmed.

Lemma isspace_lower_char (c : ascii) : isspace (lower_char c) = isspace c.
Proof.
  destruct c as [b0 b1 b2 b3 b4 b5 b6 b7];
    destruct b0, b1, b2, b3, b4, b5, b6, b7; reflexivity.
Qed.

Lemma lower_char_idem (c : ascii) : lower_char (lower_char c) = lower_char c.
Proof.
  destruct c as [b0 b1 b2 b3 b4 b5 b6 b7];
    destruct b0, b1, b2, b3, b4, b5, b6, b7; reflexivity.
Qed.

Lemma lower_idem (s : string) : lower (lower s) = lower s.
Proof.
  induction s as [| c s IH]; cbn; [reflexivity |].
  now rewrite lower_char_idem, IH.
Qed.

Lemma lstrip_lower (s : string) : lstrip (lower s) = lower (lstrip s).
Proof.
  induction s as [| c s IH]; cbn; [reflexivity |].
  rewrite isspace_lower_char. now destruct (isspace c).
Qed.

Lemma rstrip_lower (s : string) : rstrip (lower s) = lower (rstrip s).
Proof.
  induction s as [| c s IH]; cbn; [reflexivity |].
  rewrite IH, isspace_lower_char.
  destruct (rstrip s); cbn; [now destruct (isspace c) | reflexivity].
Qed.

Lemma strip_lower (s : string) : strip (lower s) = lower (strip s).
Proof. unfold strip. now rewrite lstrip_lower, rstrip_lower. Qed.

Lemma lstrip_left_trimmed (s : string) : left_trimmed (lstrip s).
Proof.
  induction s as [| c s IH]; cbn; [exact I |].
  destruct (isspace c) eqn:E; [exact IH | exact E].
Qed.

Lemma lstrip_id (s : string) : left_trimmed s -> lstrip s = s.
Proof. destruct s as [| c s]; cbn; [reflexivity | now intros ->]. Qed.

Lemma rstrip_left_trimmed (s : string) :
  left_trimmed s -> left_trimmed (rstrip s).
Proof.
  destruct s as [| c s]; cbn; [intros H; exact H |]. intros Hc.
  destruct (rstrip s); [now rewrite Hc | exact Hc].
Qed.

Lemma rstrip_idem (s : string) : rstrip (rstrip s) = rstrip s.
Proof.
  induction s as [| c s IH]; cbn; [reflexivity |].
  destruct (rstrip s) as [| c' t] eqn:E.
  - destruct (isspace c) eqn:Ec; cbn; [reflexivity | now rewrite Ec].
  - cbn [rstrip] in IH |- *. rewrite IH. reflexivity.
Qed.

Lemma strip_idem (s : string) : strip (strip s) = strip s.
Proof.
  unfold strip.
  rewrite (lstrip_id (rstrip (lstrip s)))
    by apply rstrip_left_trimmed, lstrip_left_trimmed.
  apply rstrip_idem.
Qed.

Lemma normalize_idem (s : string) : normalize (normalize s) = normalize s.
Proof.
  unfold normalize. now rewrite strip_lower, strip_idem, lower_idem.
Qed.

End PyStrFacts.

(** * Further properties of the allocator *)

Module AllocationExtra.

Import Allocation.
Import AllocationProofs.

(** ** choose_factor_scenario *)

Section Scenario.

Variable float_of_string : string -> option Q.

Local Abbreviation choose_factor_scenario :=
  (choose_factor_scenario float_of_string).

Lemma find_scenario_first (factors : list factor) (sid : string) :
  (exists row, In row factors /\ f_id row = sid) ->
  exists (i : nat) (row : factor),
    find_scenario factors sid = Some row /\
    factors !! i = Some row /\ f_id row = sid /\
    forall (j : nat) (r : factor),
      j < i -> factors !! j = Some r -> f_id r <> sid.
Proof.
  induction factors as [| r0 rest IH]; intros [row [Hin Hid]];
    [contradiction |].
  cbn [find_scenario].
  destruct (String.eqb_spec (f_id r0) sid) as [E | Hne].
  - exists 0, r0. repeat split; [exact E |]. intros j r Hj. lia.
  - destruct IH as [i [row' [Hf [Hi [Hid' Hbefore]]]]].
    { destruct Hin as [-> | Hin]; [contradiction | eauto]. }
    exists (S i), row'. repeat split; try assumption.
    intros [| j] r Hj Hr; cbn in Hr.
    + now injection Hr as <-.
    + apply (Hbefore j r); [lia | exact Hr].
Qed.

(** With an id that some scenario has, the first scenario of that id in
    input order is selected, whatever the call volumes. *)
Theorem choose_factor_scenario_match (factors : list factor)
    (sid : string) :
  (exists row, In row factors /\ f_id row = sid) ->
  exists (i : nat) (row : factor),
    choose_factor_scenario factors (Some sid) = Ok row /\
    factors !! i = Some row /\ f_id row = sid /\
    forall (j : nat) (r : factor),
      j < i -> factors !! j = Some r -> f_id r <> sid.
Proof.
  intros H. destruct (find_scenario_first factors sid H)
    as [i [row [Hf Hrest]]].
  exists i, row. split; [| exact Hrest].
  unfold Allocation.choose_factor_scenario. now rewrite Hf.
Qed.

Lemma find_scenario_In (factors : list factor) (sid : string)
    (row : factor) :
  find_scenario factors sid = Some row -> In row factors.
Proof.
  induction factors as [| r0 rest IH]; cbn; [discriminate |].
  destruct (String.eqb (f_id r0) sid); [intros [= ->]; now left |].
  intros H. right. now apply IH.
Qed.

Lemma choose_factor_scenario_nonempty (factors : list factor)
    (scenario_id : option string) :
  factors <> [] ->
  exists row, choose_factor_scenario factors scenario_id = Ok row /\
              In row factors.
Proof.
  intros Hne.
  destruct (py_max_first_largest
              (fun r => safe_float float_of_string
                          (f_expected_call_volume r)) factors Hne)
    as [i [b [Hmax [Hi _]]]].
  assert (Hb : In b factors).
  { apply list_elem_of_In. eapply list_elem_of_lookup_2. exact Hi. }
  unfold Allocation.choose_factor_scenario. cbv zeta.
  destruct scenario_id as [sid |]; [| eauto].
  destruct (find_scenario factors sid) as [row |] eqn:Hf; [| eauto].
  exists row. split; [reflexivity |]. eapply find_scenario_In. exact Hf.
Qed.

Lemma choose_factor_scenario_empty (scenario_id : option string) :
  choose_factor_scenario [] scenario_id = Raise ValueError.
Proof. now destruct scenario_id. Qed.

(** The selection raises exactly when there is no scenario at all, and
    then it is the [ValueError] of [max]; otherwise it returns one of
    the scenarios of the list. *)
Theorem choose_factor_scenario_defined (factors : list factor)
    (scenario_id : option string) :
  (factors = [] ->
   choose_factor_scenario factors scenario_id = Raise ValueError) /\
  (factors <> [] ->
   exists row, choose_factor_scenario factors scenario_id = Ok row /\
               In row factors).
Proof.
  split.
  - intros ->. apply choose_factor_scenario_empty.
  - apply choose_factor_scenario_nonempty.
Qed.

End Scenario.

(** ** The weight map *)

Lemma dict_set_NoDup {V : Type} (d : dict V) (k : string) (x : V) :
  NoDup (List.map fst d) -> NoDup (List.map fst (dict_set d k x)).
Proof.
  induction d as [| [k' x'] d IH]; cbn; intros Hnd.
  - apply NoDup_singleton.
  - apply NoDup_cons in Hnd as [Hk' Hnd].
    destruct (String.eqb_spec k' k) as [-> | Hne]; cbn.
    + now apply NoDup_cons.
    + apply NoDup_cons. split; [| now apply IH].
      rewrite list_elem_of_In, dict_set_keys. rewrite list_elem_of_In in Hk'.
      intros [E | Hin]; [congruence | contradiction].
Qed.

Lemma dict_get_In {V : Type} (d : dict V) (k : string) (x : V) :
  NoDup (List.map fst d) -> In (k, x) d -> dict_get d k = Some x.
Proof.
  induction d as [| [k' x'] d IH]; cbn; [contradiction |].
  intros Hnd Hin. apply NoDup_cons in Hnd as [Hk' Hnd].
  destruct Hin as [[= -> ->] | Hin].
  - now rewrite String.eqb_refl.
  - destruct (String.eqb_spec k' k) as [-> | Hne]; [| now apply IH].
    exfalso. apply Hk'. apply list_elem_of_In.
    apply in_map_iff. now exists (k, x).
Qed.

Section Weights.

Variable float_of_string : string -> option Q.
Variable int_of_string : string -> option Z.

Local Abbreviation capacity := (capacity int_of_string).
Local Abbreviation station_weight := (station_weight int_of_string).
Local Abbreviation weights_step := (weights_step int_of_string).
Local Abbreviation compute_station_weights :=
  (compute_station_weights float_of_string int_of_string).
Local Abbreviation factor_weight :=
  (factor_weight float_of_string int_of_string).

Lemma station_weight_capacity (region_hot : string) (mult : Q)
    (vtype : string) (s : station) (w : Z) :
  station_weight region_hot mult vtype s = Some w ->
  (0 < capacity vtype s)%Z.
Proof.
  unfold Allocation.station_weight. cbv zeta.
  destruct (Z.leb_spec (capacity vtype s) 0); [discriminate | lia].
Qed.

Lemma weights_fold_NoDup (region_hot : string) (mult : Q) (vtype : string)
    (stations : list station) :
  forall acc : dict Z,
    NoDup (List.map fst acc) ->
    NoDup (List.map fst
             (fold_left (weights_step region_hot mult vtype) stations acc)).
Proof.
  induction stations as [| s stations IH]; intros acc Hnd; cbn;
    [exact Hnd |].
  apply IH. rewrite weights_step_station_weight.
  destruct (station_weight region_hot mult vtype s);
    [now apply dict_set_NoDup | exact Hnd].
Qed.

Lemma weights_fold_origin (region_hot : string) (mult : Q) (vtype : string)
    (stations : list station) :
  forall (acc : dict Z) (kw : string * Z),
    In kw (fold_left (weights_step region_hot mult vtype) stations acc) ->
    In kw acc \/
    exists s, In s stations /\ s_id s = fst kw /\
              station_weight region_hot mult vtype s = Some (snd kw).
Proof.
  induction stations as [| s stations IH]; intros acc kw; cbn; [auto |].
  intros Hin. apply IH in Hin as [Hin | [s' [Hs' H]]].
  - rewrite weights_step_station_weight in Hin.
    destruct (station_weight region_hot mult vtype s) as [w |] eqn:E;
      [| auto].
    apply dict_set_in in Hin as [-> | Hin]; [| auto].
    right. exists s. cbn. auto.
  - right. exists s'. split; [now right | exact H].
Qed.

Lemma weight_keys_distinct (stations : list station)
    (factor_row : factor) (vtype : string) :
  NoDup (List.map fst (compute_station_weights stations factor_row vtype)).
Proof.
  unfold Allocation.compute_station_weights. cbv zeta.
  apply weights_fold_NoDup. constructor.
Qed.

Lemma weight_key_origin (stations : list station)
    (factor_row : factor) (vtype : string) (sid : string) (w : Z) :
  In (sid, w) (compute_station_weights stations factor_row vtype) ->
  exists s, In s stations /\ s_id s = sid /\
            factor_weight factor_row vtype s = Some w.
Proof.
  unfold Allocation.compute_station_weights. cbv zeta. intros Hin.
  apply weights_fold_origin in Hin as [[] | H]. exact H.
Qed.

(** Whatever the stations, the weight map has distinct keys, every
    weight in it is positive, and every key is the id of a station whose
    capacity for the type is positive. *)
Theorem compute_station_weights_invariant (stations : list station)
    (factor_row : factor) (vtype : string) :
  NoDup (List.map fst (compute_station_weights stations factor_row vtype)) /\
  forall (sid : string) (w : Z),
    In (sid, w) (compute_station_weights stations factor_row vtype) ->
    (0 < w)%Z /\
    exists s, In s stations /\ s_id s = sid /\ (0 < capacity vtype s)%Z.
Proof.
  split; [apply weight_keys_distinct |].
  intros sid w Hin.
  apply weight_key_origin in Hin as [s [Hs [Hid Hw]]].
  split.
  - eapply station_weight_pos. exact Hw.
  - exists s. split; [exact Hs |]. split; [exact Hid |].
    eapply station_weight_capacity. exact Hw.
Qed.

(** *** The cycle list *)

Lemma count_occ_repeat (sid k : string) (n : nat) :
  count_occ string_dec (repeat k n) sid = if String.eqb k sid then n else 0.
Proof.
  induction n as [| n IH]; cbn.
  - now destruct (String.eqb k sid).
  - destruct (string_dec k sid) as [-> | Hne].
    + rewrite IH, String.eqb_refl. reflexivity.
    + rewrite IH. now destruct (String.eqb_spec k sid).
Qed.

Lemma count_occ_cycle (weights : dict Z) (sid : string) :
  NoDup (List.map fst weights) ->
  count_occ string_dec (weighted_station_ids weights) sid
  = Z.to_nat (default 0%Z (dict_get weights sid)).
Proof.
  rewrite weighted_station_ids_flat.
  induction weights as [| [k w] weights IH]; cbn; intros Hnd;
    [reflexivity |].
  apply NoDup_cons in Hnd as [Hk Hnd].
  rewrite count_occ_app, count_occ_repeat, (IH Hnd).
  destruct (String.eqb_spec k sid) as [-> | Hne]; [| reflexivity].
  rewrite dict_get_not_in_keys; [cbn; lia |].
  now rewrite <- list_elem_of_In.
Qed.

Lemma length_cycle (weights : dict Z) :
  (forall kw, In kw weights -> (0 <= snd kw)%Z) ->
  Z.of_nat (List.length (weighted_station_ids weights))
  = fold_right Z.add 0%Z (List.map snd weights).
Proof.
  rewrite weighted_station_ids_flat.
  induction weights as [| [k w] weights IH]; cbn; intros Hpos;
    [reflexivity |].
  rewrite length_app, repeat_length, Nat2Z.inj_add, IH.
  - rewrite Z2Nat.id; [reflexivity |]. apply (Hpos (k, w)). now left.
  - intros kw Hin. apply Hpos. now right.
Qed.

(** In the cycle list built from the weight map, every station id occurs
    as many times as its weight (not at all when it has none), and the
    length of the list is the sum of the weights. *)
Theorem cycle_counts_weights (stations : list station)
    (factor_row : factor) (vtype : string) :
  let weights := compute_station_weights stations factor_row vtype in
  let cycle := weighted_station_ids weights in
  (forall sid : string,
     count_occ string_dec cycle sid
     = Z.to_nat (default 0%Z (dict_get weights sid))) /\
  Z.of_nat (List.length cycle) = fold_right Z.add 0%Z (List.map snd weights).
Proof.
  cbv zeta. split.
  - intros sid. apply count_occ_cycle, weight_keys_distinct.
  - apply length_cycle. intros [k w] Hin. cbn.
    apply weight_key_origin in Hin as [s [_ [_ Hw]]].
    apply station_weight_pos in Hw. lia.
Qed.

(** *** The boost of the hot region *)

Lemma py_round_ge (z : Z) (x : Q) :
  (inject_Z z <= x)%Q -> (z <= py_round x)%Z.
Proof.
  intros Hzx.
  assert (Hf : (z <= Qfloor x)%Z).
  { rewrite <- (Qfloor_Z z). now apply Qfloor_resp_le. }
  unfold py_round. cbv zeta.
  destruct (Qcompare (x - inject_Z (Qfloor x)) (1 # 2)); [| lia | lia].
  destruct (Z.even (Qfloor x)); lia.
Qed.

Lemma Qmult_boost (c vol : Q) :
  (0 <= c)%Q -> (0 <= vol)%Q -> (c <= c * (1 + vol))%Q.
Proof.
  intros Hc Hvol.
  assert (H : (0 <= c * vol)%Q) by now apply Qmult_le_0_compat.
  nra.
Qed.


End Weights.

(** ** build_station_lookup *)

Lemma build_station_lookup_snd (stations : list station) :
  snd (build_station_lookup stations) =
  fold_left
    (fun rm s => setdefault_append rm (region_of (s_region s)) (s_id s))
    stations [].
Proof.
  unfold build_station_lookup.
  generalize (@nil (string * station)) (@nil (string * list string)).
  induction stations as [| s stations IH]; intros d r; cbn; [reflexivity |].
  apply IH.
Qed.

Lemma lookup_fold_last (sid : string) (stations : list station) :
  forall d : dict station,
    dict_get (fold_left (fun d s => dict_set d (s_id s) s) stations d) sid
    = match last (List.filter (fun s => String.eqb (s_id s) sid) stations)
      with
      | Some s => Some s
      | None => dict_get d sid
      end.
Proof.
  induction stations as [| s stations IH]; intros d; [reflexivity |].
  cbn [fold_left List.filter]. rewrite IH.
  destruct (String.eqb_spec (s_id s) sid) as [<- | Hne].
  - rewrite last_cons, dict_get_set_eq.
    now destruct (last (List.filter _ stations)).
  - now rewrite dict_get_set_ne.
Qed.

Lemma setdefault_append_get (rm : dict (list string)) (r r0 sid : string) :
  dict_get (setdefault_append rm r sid) r0 =
  if String.eqb r r0
  then Some (default [] (dict_get rm r0) ++ [sid])
  else dict_get rm r0.
Proof.
  unfold setdefault_append.
  destruct (String.eqb_spec r r0) as [<- | Hne].
  - destruct (dict_get rm r); now rewrite dict_get_set_eq.
  - destruct (dict_get rm r); now rewrite dict_get_set_ne.
Qed.

Lemma region_fold_get (r : string) (stations : list station) :
  forall rm : dict (list string),
    dict_get
      (fold_left
         (fun rm s => setdefault_append rm (region_of (s_region s)) (s_id s))
         stations rm) r
    = match List.filter
              (fun s => String.eqb (region_of (s_region s)) r) stations
      with
      | [] => dict_get rm r
      | l => Some (default [] (dict_get rm r) ++ List.map s_id l)
      end.
Proof.
  induction stations as [| s stations IH]; intros rm; [reflexivity |].
  cbn [fold_left List.filter]. rewrite IH, setdefault_append_get.
  destruct (String.eqb (region_of (s_region s)) r).
  - destruct (List.filter _ stations) as [| s' l]; cbn [default List.map].
    + reflexivity.
    + unfold Datatypes.id. now rewrite <- app_assoc.
  - reflexivity.
Qed.


(** ** The assignment pass *)

Section Pass.

Variable float_of_string : string -> option Q.
Variable int_of_string : string -> option Z.

Local Abbreviation capacity := (capacity int_of_string).
Local Abbreviation compute_station_weights :=
  (compute_station_weights float_of_string int_of_string).
Local Abbreviation assign_vehicles_to_stations :=
  (assign_vehicles_to_stations float_of_string int_of_string).
Local Abbreviation visit := (visit float_of_string int_of_string).
Local Abbreviation type_action :=
  (type_action float_of_string int_of_string).
Local Abbreviation rank_action := (rank_action float_of_string).

Lemma assign_ids (vehicles : list vehicle) (stations : list station)
    (factor_row : factor) :
  List.map v_id (assign_vehicles_to_stations vehicles stations factor_row)
  = List.map v_id vehicles.
Proof.
  apply list_eq. intros k. rewrite !lookup_map, assign_lookup_visit.
  destruct (vehicles !! k) as [v |]; cbn; [| reflexivity].
  f_equal. apply visit_frame.
Qed.

Lemma assign_length (vehicles : list vehicle) (stations : list station)
    (factor_row : factor) :
  List.length (assign_vehicles_to_stations vehicles stations factor_row)
  = List.length vehicles.
Proof.
  rewrite <- (List.length_map v_id), assign_ids. apply List.length_map.
Qed.

(** The pass creates and destroys no vehicle and changes no id and no
    type: the output lists the same vehicles in the same order. *)
Theorem assign_keeps_units (vehicles : list vehicle)
    (stations : list station) (factor_row : factor) :
  List.length (assign_vehicles_to_stations vehicles stations factor_row)
    = List.length vehicles /\
  List.map v_id (assign_vehicles_to_stations vehicles stations factor_row)
    = List.map v_id vehicles /\
  List.map v_type (assign_vehicles_to_stations vehicles stations factor_row)
    = List.map v_type vehicles.
Proof.
  split; [apply assign_length |].
  split; [apply assign_ids | apply assign_types].
Qed.

Lemma visit_no_weights (vehicles : list vehicle) (stations : list station)
    (factor_row : factor) (k : nat) (v : vehicle) :
  compute_station_weights stations factor_row (PyStr.normalize (v_type v))
    = [] ->
  visit vehicles stations factor_row k v = v.
Proof.
  intros Hw. unfold Allocation.visit. case_bool_decide; [| reflexivity].
  unfold Allocation.type_action. now rewrite Hw.
Qed.


Lemma rank_action_station (stations : list station) (cycle : list string)
    (i : nat) (v : vehicle) :
  (forall sid, In sid cycle -> In sid (List.map s_id stations)) ->
  cycle <> [] ->
  v_station_id
    (rank_action (fst (build_station_lookup stations)) cycle i v)
  = nth_error cycle (i mod List.length cycle).
Proof.
  intros Hkeys Hne.
  destruct (nth_error_mod_Some cycle i Hne) as [sid [Hnth Hin]].
  destruct (station_lookup_get stations sid (Hkeys sid Hin))
    as [st [Hget _]].
  unfold Allocation.rank_action. now rewrite Hnth, Hget.
Qed.

Lemma cycle_keys_stations (stations : list station) (factor_row : factor)
    (vtype : string) (sid : string) :
  In sid (weighted_station_ids
            (compute_station_weights stations factor_row vtype)) ->
  In sid (List.map s_id stations).
Proof.
  intros Hin. eapply compute_station_weights_keys.
  apply weighted_station_ids_keys. exact Hin.
Qed.


(** *** Shares *)

Import Tally.

Lemma picks_block (cycle : list string) (sid : string) (a : nat) :
  forall pre l : list string,
    cycle = pre ++ l ->
    List.length
      (List.filter (picks cycle sid)
         (seq (a * List.length cycle + List.length pre) (List.length l)))
    = count_occ string_dec l sid.
Proof.
  intros pre l. revert pre.
  induction l as [| x l IH]; intros pre Hc; [reflexivity |].
  cbn [List.length seq List.filter count_occ].
  assert (Hx : picks cycle sid (a * List.length cycle + List.length pre)
               = String.eqb x sid).
  { unfold picks.
    assert (Hlt : List.length pre < List.length cycle)
      by (rewrite Hc, length_app; cbn; lia).
    rewrite Nat.add_comm, Nat.Div0.mod_add, Nat.mod_small by exact Hlt.
    rewrite Hc, nth_error_app2, Nat.sub_diag by lia. reflexivity. }
  rewrite Hx.
  specialize (IH (pre ++ [x])).
  rewrite length_app in IH. cbn [List.length] in IH.
  replace (a * List.length cycle + (List.length pre + 1))
    with (S (a * List.length cycle + List.length pre)) in IH by lia.
  rewrite <- app_assoc in IH. specialize (IH Hc).
  destruct (String.eqb_spec x sid) as [-> | Hne].
  - destruct (string_dec sid sid); [| contradiction]. cbn. now rewrite IH.
  - destruct (string_dec x sid); [contradiction |]. exact IH.
Qed.

Lemma picks_rounds (cycle : list string) (sid : string) (q : nat) :
  List.length
    (List.filter (picks cycle sid) (seq 0 (q * List.length cycle)))
  = q * count_occ string_dec cycle sid.
Proof.
  induction q as [| q IH]; [reflexivity |].
  replace (S q * List.length cycle)
    with (q * List.length cycle + List.length cycle) by lia.
  rewrite seq_app, List.filter_app, length_app, IH. cbn [Nat.add].
  pose proof (picks_block cycle sid q [] cycle eq_refl) as Hb.
  cbn [List.length] in Hb. rewrite Nat.add_0_r in Hb. rewrite Hb. lia.
Qed.

Lemma filter_length_ext_lookup (f : nat -> bool) (g : nat -> bool)
    (l : list nat) :
  forall i0 : nat,
    (forall j k, l !! j = Some k -> f k = g (i0 + j)) ->
    List.length (List.filter f l)
    = List.length (List.filter g (seq i0 (List.length l))).
Proof.
  induction l as [| k l IH]; intros i0 H; [reflexivity |].
  cbn [List.filter List.length seq].
  rewrite (H 0 k eq_refl), Nat.add_0_r.
  assert (IH' : List.length (List.filter f l)
               = List.length (List.filter g (seq (S i0) (List.length l)))).
  { apply IH. intros j k' Hj. rewrite (H (S j) k' Hj). f_equal. lia. }
  destruct (g i0); cbn [List.length]; now rewrite IH'.
Qed.

Lemma units_of_type (vehicles : list vehicle) (vtype : string)
    (units : list nat) :
  dict_get (vehicles_by_type vehicles) vtype = Some units ->
  vtype ∈ known_types /\ units = type_indices vehicles vtype.
Proof.
  rewrite vehicles_by_type_eq. cbn [dict_get]. unfold known_types.
  destruct (String.eqb_spec "ambulance" vtype) as [<- | _];
    [intros [= <-]; split; [rewrite !elem_of_cons; tauto | reflexivity] |].
  destruct (String.eqb_spec "police" vtype) as [<- | _];
    [intros [= <-]; split; [rewrite !elem_of_cons; tauto | reflexivity] |].
  destruct (String.eqb_spec "fire" vtype) as [<- | _];
    [intros [= <-]; split; [rewrite !elem_of_cons; tauto | reflexivity] |].
  discriminate.
Qed.

Lemma based_at_rank (vehicles : list vehicle) (stations : list station)
    (factor_row : factor) (vtype : string) (sid : string) (i k : nat) :
  vtype ∈ known_types ->
  compute_station_weights stations factor_row vtype <> [] ->
  type_indices vehicles vtype !! i = Some k ->
  based_at (assign_vehicles_to_stations vehicles stations factor_row) sid k
  = picks (weighted_station_ids
             (compute_station_weights stations factor_row vtype)) sid i.
Proof.
  intros Hknown Hne Hi.
  assert (Hin : In k (type_indices vehicles vtype))
    by (apply list_elem_of_In; eapply list_elem_of_lookup_2; exact Hi).
  apply type_indices_in in Hin as [v [Hk Hty]].
  unfold based_at, picks.
  rewrite assign_lookup_visit, Hk. cbn [fmap option_fmap option_map].
  unfold Allocation.visit. rewrite Hty, bool_decide_eq_true_2 by exact Hknown.
  rewrite (type_action_rank _ _ _ _ _ _ k i v Hne)
    by (apply index_of_lookup; [apply type_indices_NoDup | exact Hi]).
  rewrite rank_action_station;
    [reflexivity | intros s; apply cycle_keys_stations
     | now apply weights_nonempty_cycle].
Qed.


(** *** Types normalised beforehand *)

Import Main.

Lemma type_indices_from_normalized (t : string) (l : list vehicle) :
  forall i : nat,
    type_indices_from i
      (List.map (fun v => set_type (PyStr.normalize (v_type v)) v) l) t
    = type_indices_from i l t.
Proof.
  induction l as [| v l IH]; intros i; [reflexivity |].
  cbn [List.map type_indices_from set_type v_type].
  now rewrite PyStrFacts.normalize_idem, !IH.
Qed.

Lemma rank_action_set_type (station_lookup : dict station)
    (cycle : list string) (i : nat) (t : string) (v : vehicle) :
  rank_action station_lookup cycle i (set_type t v)
  = set_type t (rank_action station_lookup cycle i v).
Proof.
  unfold Allocation.rank_action.
  destruct (nth_error cycle (i mod List.length cycle)) as [sid |];
    [| reflexivity].
  destruct (dict_get station_lookup sid) as [st |]; [| reflexivity].
  unfold move_to.
  destruct (parse_cell float_of_string (s_lat st)); [| reflexivity].
  destruct (parse_cell float_of_string (s_lon st)); reflexivity.
Qed.

Lemma type_action_set_type (stations : list station) (factor_row : factor)
    (vtype : string) (vlist : list nat) (k : nat) (t : string)
    (v : vehicle) :
  type_action stations factor_row vtype vlist k (set_type t v)
  = set_type t (type_action stations factor_row vtype vlist k v).
Proof.
  unfold Allocation.type_action.
  destruct (compute_station_weights stations factor_row vtype);
    [reflexivity |].
  destruct (weighted_station_ids _); [reflexivity |].
  destruct (index_of k vlist); [| reflexivity].
  apply rank_action_set_type.
Qed.

(** Normalising the types of the fleet before the pass, as [main] does,
    changes nothing in the allocation: the pass on the normalised fleet
    is the pass on the fleet as read, with the types normalised. *)
Theorem assign_types_normalized_beforehand (vehicles : list vehicle)
    (stations : list station) (factor_row : factor) :
  assign_vehicles_to_stations
    (List.map (fun v => set_type (PyStr.normalize (v_type v)) v) vehicles)
    stations factor_row
  = List.map (fun v => set_type (PyStr.normalize (v_type v)) v)
      (assign_vehicles_to_stations vehicles stations factor_row).
Proof.
  apply list_eq. intros k.
  rewrite lookup_map, !assign_lookup_visit, lookup_map.
  destruct (vehicles !! k) as [v |]; cbn; [| reflexivity]. f_equal.
  destruct (visit_frame float_of_string int_of_string vehicles stations
              factor_row k v) as [_ [Hty _]].
  rewrite Hty.
  unfold Allocation.visit, type_indices. cbn [v_type set_type].
  rewrite PyStrFacts.normalize_idem, type_indices_from_normalized.
  case_bool_decide; [| reflexivity].
  apply type_action_set_type.
Qed.

(** *** main *)

Lemma normalize_status_cases (s : option string) :
  normalize_status s = "available" \/ normalize_status s = "busy".
Proof.
  unfold normalize_status. cbv zeta.
  destruct (String.eqb_spec (PyStr.normalize
                               match s with
                               | Some x => x
                               | None => "available"
                               end) "available") as [-> | _];
    [now left |].
  destruct (String.eqb_spec (PyStr.normalize
                               match s with
                               | Some x => x
                               | None => "available"
                               end) "busy") as [-> | _];
    [now right | now left].
Qed.


End Pass.

(** ** Worked examples *)

Section Examples.

Import Demo.
Import Main.
Import Tally.

Local Abbreviation weights_of :=
  (compute_station_weights Decimal.float_of_string Decimal.int_of_string).
Local Abbreviation rebalance :=
  (assign_vehicles_to_stations Decimal.float_of_string
     Decimal.int_of_string).

Lemma choose_factor_scenario_match_witness :
  exists (i : nat) (row : factor),
    choose_factor_scenario Decimal.float_of_string
      [scenario; calm_scenario] (Some "2") = Ok row /\
    [scenario; calm_scenario] !! i = Some row /\ f_id row = "2" /\
    forall (j : nat) (r : factor),
      j < i -> [scenario; calm_scenario] !! j = Some r -> f_id r <> "2".
Proof.
  apply (choose_factor_scenario_match Decimal.float_of_string
           [scenario; calm_scenario] "2").
  exists calm_scenario. split; [cbn; tauto | reflexivity].
Defined.

Lemma choose_factor_scenario_defined_witness :
  exists row,
    choose_factor_scenario Decimal.float_of_string
      [scenario; calm_scenario] (Some "9") = Ok row /\
    In row [scenario; calm_scenario].
Proof.
  apply (proj2 (choose_factor_scenario_defined Decimal.float_of_string
                  [scenario; calm_scenario] (Some "9"))).
  discriminate.
Defined.






(** What [main] writes for the two demo rows: the padded, upper-case
    status is read as busy, the unknown status as available. *)
Example demo_main :
  List.map (fun v => (v_id v, v_type v, v_status v, v_station_id v))
    <$> (match main Decimal.float_of_string Decimal.int_of_string
                 [scenario] None demo_rows stations with
         | Ok written => Some written
         | Raise _ => None
         end)
  = Some [("A1", "ambulance", "busy", Some "S1");
          ("P1", "police", "available", Some "S2")].
Proof. vm_compute. reflexivity. Qed.

End Examples.

End AllocationExtra.

(** * Properties of the database set-up *)

Module InitDbProofs.

Import Backend.
Import BackendProofs.
Import BackendExtra.
Import InitDb.

Section Init.

Variable float_of_string : string -> option R.

Local Abbreviation to_db_row := (to_db_row float_of_string).
Local Abbreviation to_db := (to_db float_of_string).
Local Abbreviation init_db := (init_db float_of_string).

Lemma to_db_Forall2 (rows : list Main.csv_vehicle) :
  forall vs : list vehicle,
    to_db rows = Some vs <->
    Forall2 (fun row v => to_db_row row = Some v) rows vs.
Proof.
  induction rows as [| row rows IH]; intros vs; cbn.
  - split.
    + intros [= <-]. constructor.
    + intros H. inversion H. reflexivity.
  - split.
    + destruct (to_db_row row) as [v |] eqn:Ev; [| discriminate].
      destruct (InitDb.to_db float_of_string rows) as [vs' |] eqn:Evs;
        [| discriminate].
      intros [= <-]. constructor; [exact Ev | now apply IH].
    + intros H. inversion H as [| row' v rows' vs' Hv Hrest]; subst.
      rewrite Hv. apply IH in Hrest. now rewrite Hrest.
Qed.

Lemma to_db_None (rows : list Main.csv_vehicle) :
  to_db rows = None <-> exists row, In row rows /\ to_db_row row = None.
Proof.
  induction rows as [| row rows IH]; cbn.
  - split; [discriminate | intros [row [[] _]]].
  - destruct (to_db_row row) as [v |] eqn:Ev.
    + destruct (InitDb.to_db float_of_string rows) as [vs' |] eqn:Evs.
      * split; [discriminate |].
        intros [r [[<- | Hin] Hr]]; [congruence |].
        destruct IH as [_ IH]. enough (Some vs' = None) by discriminate.
        apply IH. eauto.
      * split; [| reflexivity]. intros _.
        destruct IH as [IH _]. destruct (IH eq_refl) as [r [Hin Hr]].
        exists r. split; [now right | exact Hr].
    + split; [| reflexivity]. intros _. exists row.
      split; [now left | exact Ev].
Qed.

Lemma existsb_id (table : list vehicle) (u : string) :
  existsb (fun v0 => String.eqb (v_id v0) u) table = true <->
  In u (List.map v_id table).
Proof.
  rewrite existsb_exists, in_map_iff. split.
  - intros [v [Hin E]]. apply String.eqb_eq in E. eauto.
  - intros [v [E Hin]]. exists v. split; [exact Hin | now apply String.eqb_eq].
Qed.

Lemma insert_all_spec (new_rows : list vehicle) :
  forall table : list vehicle,
    NoDup (List.map v_id table) ->
    match insert_all table new_rows with
    | Some t => t = table ++ new_rows /\ NoDup (List.map v_id t)
    | None => ~ NoDup (List.map v_id (table ++ new_rows))
    end.
Proof.
  induction new_rows as [| v rest IH]; intros table Hnd; cbn.
  - now rewrite app_nil_r.
  - destruct (existsb _ table) eqn:E.
    + apply existsb_id in E. intros Hall.
      rewrite List.map_app in Hall. apply NoDup_app in Hall as [_ [Hd _]].
      apply (Hd (v_id v)); [now apply list_elem_of_In |].
      cbn. apply elem_of_cons. now left.
    + assert (Hfresh : ~ In (v_id v) (List.map v_id table)).
      { intros Hin. apply existsb_id in Hin. congruence. }
      assert (Hnd' : NoDup (List.map v_id (table ++ [v]))).
      { rewrite List.map_app. apply NoDup_app. split; [exact Hnd |]. split.
        - intros u Hu Hv. cbn in Hv. apply list_elem_of_singleton in Hv.
          subst u. now apply list_elem_of_In in Hu.
        - cbn. apply NoDup_singleton. }
      specialize (IH (table ++ [v]) Hnd').
      rewrite <- app_assoc in IH. exact IH.
Qed.

Lemma to_db_row_facts (row : Main.csv_vehicle) (v : vehicle) :
  to_db_row row = Some v ->
  v_id v = PyStr.strip (Main.c_id row) /\
  v_type v = PyStr.normalize (Main.c_type row) /\
  v_status v = Main.normalize_status (Main.c_status row) /\
  float_of_string (Main.c_lat row) = Some (v_lat v) /\
  float_of_string (Main.c_lon row) = Some (v_lon v).
Proof.
  unfold InitDb.to_db_row.
  destruct (float_of_string (Main.c_lat row)) as [la |]; [| discriminate].
  destruct (float_of_string (Main.c_lon row)) as [lo |]; [| discriminate].
  intros [= <-]. repeat split.
Qed.

Lemma Forall2_to_db_ids (rows : list Main.csv_vehicle) (vs : list vehicle) :
  Forall2 (fun row v => to_db_row row = Some v) rows vs ->
  List.map v_id vs = List.map (fun row => PyStr.strip (Main.c_id row)) rows.
Proof.
  induction 1 as [| row v rows vs Hv _ IH]; cbn; [reflexivity |].
  destruct (to_db_row_facts row v Hv) as [-> _]. now rewrite IH.
Qed.

Lemma init_db_inr (rows : list Main.csv_vehicle) (table : list vehicle) :
  init_db rows = inr table ->
  Forall2 (fun row v => to_db_row row = Some v) rows table /\
  NoDup (List.map v_id table).
Proof.
  unfold InitDb.init_db.
  destruct (to_db rows) as [vs |] eqn:Evs; [| discriminate].
  pose proof (insert_all_spec vs [] (NoDup_nil_2 (A:=string))) as Hins.
  destruct (insert_all [] vs) as [t |]; [| discriminate].
  intros [= <-]. destruct Hins as [-> Hnd]. cbn.
  split; [now apply to_db_Forall2 | exact Hnd].
Qed.




End Init.

(** ** Worked examples *)

Example demo_init_db :
  init_db zero_float Main.demo_rows =
  inr [ row "A1" "ambulance" 0 0 "busy" "";
        row "P1" "police" 0 0 "available" "" ].
Proof. reflexivity. Qed.



End InitDbProofs.

(** * Properties of the service-driven update *)

Module AiProofs.

Import Backend.
Import AiAllocation.

(** ** update_db *)

Lemma update_db_snoc (db : list vehicle) (assignments : list assignment)
    (a : assignment) :
  update_db db (assignments ++ [a]) =
  (fst (update_one (fst (update_db db assignments)) a),
   if snd (update_one (fst (update_db db assignments)) a)
   then S (snd (update_db db assignments))
   else snd (update_db db assignments)).
Proof.
  unfold update_db. rewrite fold_left_app. cbn [fold_left].
  destruct (fold_left _ assignments (db, 0)) as [db1 c]. cbn [fst snd].
  now destruct (update_one db1 a).
Qed.

Lemma settle_frame (assignments : list assignment) (v : vehicle) :
  v_id (settle assignments v) = v_id v /\
  v_type (settle assignments v) = v_type v /\
  v_status (settle assignments v) = v_status v.
Proof.
  unfold settle. destruct (last _) as [a |]; [| repeat split].
  destruct (a_lat a), (a_lon a); repeat split.
Qed.

Lemma settle_snoc (assignments : list assignment) (a : assignment)
    (v : vehicle) :
  settle (assignments ++ [a]) v =
  if names (v_id v) a
  then match a_lat a, a_lon a with
       | Some la, Some lo =>
           set_position la lo
             (match a_station_id a with Some s => s | None => "" end) v
       | _, _ => v
       end
  else settle assignments v.
Proof.
  unfold settle. rewrite List.filter_app. cbn [List.filter].
  destruct (names (v_id v) a).
  - now rewrite last_snoc.
  - now rewrite app_nil_r.
Qed.

Lemma update_db_lookup (db : list vehicle) (assignments : list assignment)
    (k : nat) :
  fst (update_db db assignments) !! k = settle assignments <$> db !! k.
Proof.
  induction assignments as [| a assignments IH] using rev_ind.
  - cbn. now destruct (db !! k).
  - rewrite update_db_snoc. cbn [fst].
    unfold update_one.
    destruct (a_lat a) as [la |] eqn:Ela;
      [destruct (a_lon a) as [lo |] eqn:Elo;
       [destruct (a_id a) as [uid |] eqn:Eid |] |]; cbn [fst];
      try unfold update_position; rewrite ?lookup_map, IH;
      (destruct (db !! k) as [v |]; cbn; [| reflexivity]); f_equal;
      rewrite settle_snoc; unfold names, executable;
      rewrite ?Ela, ?Elo, ?Eid; cbn [andb]; try reflexivity.
    destruct (settle_frame assignments v) as [Hid [Hty Hst]]. rewrite Hid.
    destruct (String.eqb (v_id v) uid); [| reflexivity].
    unfold set_position. now rewrite Hid, Hty, Hst.
Qed.

Lemma filter_names_nil (assignments : list assignment) (v : vehicle) :
  (forall a, In a assignments -> names (v_id v) a = false) ->
  settle assignments v = v.
Proof.
  intros Hnone. unfold settle.
  assert (E : List.filter (names (v_id v)) assignments = []).
  { induction assignments as [| a l IH]; [reflexivity |]. cbn.
    rewrite (Hnone a) by now left.
    apply IH. intros a' Ha'. apply Hnone. now right. }
  now rewrite E.
Qed.

Lemma update_db_snd (db : list vehicle) (assignments : list assignment) :
  snd (update_db db assignments)
  = List.length (List.filter executable assignments).
Proof.
  induction assignments as [| a assignments IH] using rev_ind;
    [reflexivity |].
  rewrite update_db_snoc, List.filter_app, length_app. cbn [snd List.filter].
  rewrite IH. unfold update_one, executable.
  destruct (a_lat a), (a_lon a), (a_id a); cbn; lia.
Qed.

(** [update_db] moves rows and nothing else: the table keeps its rows in
    order with their ids, types and statuses, so the update cannot make
    a unit busy or available. *)
Theorem update_db_frame (db : list vehicle) (assignments : list assignment) :
  List.length (fst (update_db db assignments)) = List.length db /\
  List.map v_id (fst (update_db db assignments)) = List.map v_id db /\
  List.map v_type (fst (update_db db assignments)) = List.map v_type db /\
  List.map v_status (fst (update_db db assignments))
    = List.map v_status db.
Proof.
  assert (Hmap : forall (A : Type) (f : vehicle -> A),
             (forall v, f (settle assignments v) = f v) ->
             List.map f (fst (update_db db assignments)) = List.map f db).
  { intros A f Hf. apply list_eq. intros k.
    rewrite !lookup_map, update_db_lookup.
    destruct (db !! k) as [v |]; cbn; [| reflexivity]. now rewrite Hf. }
  split.
  - rewrite <- (List.length_map v_id), (Hmap _ v_id).
    + apply List.length_map.
    + intros v. apply settle_frame.
  - repeat split; apply Hmap; intros v; apply settle_frame.
Qed.

(** Every row ends where the last executable assignment for its id puts
    it, and is untouched when there is none: a later assignment for the
    same id overrides an earlier one. *)
Theorem update_db_last_wins (db : list vehicle)
    (assignments : list assignment) :
  fst (update_db db assignments) = List.map (settle assignments) db.
Proof.
  apply list_eq. intros k. rewrite lookup_map. apply update_db_lookup.
Qed.

(** Assignments for ids that no row has change nothing, and they are
    counted all the same: the count printed is the number of assignments
    with an id, a latitude and a longitude, not the number of rows
    moved. *)
Theorem update_db_unknown_ids (db : list vehicle)
    (assignments : list assignment) :
  (forall a v, In a assignments -> In v db -> names (v_id v) a = false) ->
  fst (update_db db assignments) = db /\
  snd (update_db db assignments)
    = List.length (List.filter executable assignments).
Proof.
  intros Hnone. split; [| apply update_db_snd].
  apply list_eq. intros k. rewrite update_db_lookup.
  destruct (db !! k) as [v |] eqn:Hk; cbn; [| reflexivity]. f_equal.
  apply filter_names_nil. intros a Ha. apply (Hnone a v Ha).
  apply list_elem_of_In. eapply list_elem_of_lookup_2. exact Hk.
Qed.

(** ** The retry loop *)

Lemma retry_spec (service : nat -> outcome) (left : nat) :
  forall (attempt : nat) (slept : list nat),
  exists k : nat,
    k <= left /\
    snd (retry service attempt left slept)
      = slept ++ List.map (fun i => base_delay * 2 ^ i) (seq attempt k) /\
    (forall i, attempt <= i < attempt + k ->
       exists msg, service i = Exception msg /\ is_rate_limit msg = true) /\
    match fst (retry service attempt left slept) with
    | Some text => k < left /\ service (attempt + k) = Reply text
    | None =>
        k = left \/
        exists msg, service (attempt + k) = Exception msg /\
                    is_rate_limit msg = false
    end.
Proof.
  induction left as [| left IH]; intros attempt slept; cbn [retry].
  - exists 0. cbn. rewrite app_nil_r.
    split; [lia |]. split; [reflexivity |].
    split; [intros i Hi; lia | now left].
  - destruct (service attempt) as [text | msg] eqn:Es.
    + exists 0. cbn. rewrite app_nil_r, Nat.add_0_r.
      split; [lia |]. split; [reflexivity |].
      split; [intros i Hi; lia |]. split; [lia | exact Es].
    + destruct (is_rate_limit msg) eqn:Er.
      * destruct (IH (S attempt) (slept ++ [base_delay * 2 ^ attempt]))
          as [k [Hk [Hs [Hall Hend]]]].
        exists (S k). split; [lia |]. split.
        { rewrite Hs. cbn [seq List.map]. now rewrite <- app_assoc. }
        split.
        { intros i Hi. destruct (decide (i = attempt)) as [-> | Hne];
            [eauto |]. apply Hall. lia. }
        replace (attempt + S k) with (S attempt + k) by lia.
        destruct (fst (retry service (S attempt) left _)) as [text |].
        -- destruct Hend as [Hlt Hr]. split; [lia | exact Hr].
        -- destruct Hend as [-> | H]; [now left | now right].
      * exists 0. cbn. rewrite app_nil_r, Nat.add_0_r.
        split; [lia |]. split; [reflexivity |].
        split; [intros i Hi; lia |]. right. eauto.
Qed.

Lemma sum_delays (k : nat) :
  fold_right Nat.add 0 (List.map (fun i => base_delay * 2 ^ i) (seq 0 k))
  = base_delay * (2 ^ k - 1).
Proof.
  induction k as [| k IH]; [reflexivity |].
  rewrite seq_S, List.map_app, fold_right_app. cbn [List.map fold_right].
  assert (Hg : forall (l : list nat) (x : nat),
             fold_right Nat.add x l = fold_right Nat.add 0 l + x).
  { induction l as [| y l IHl]; intros x; cbn; [lia |].
    rewrite IHl. lia. }
  rewrite Hg, IH. cbn [Nat.add Nat.pow].
  assert (1 <= 2 ^ k) by (apply Nat.neq_0_lt_0, Nat.pow_nonzero; lia).
  nia.
Qed.

(** The service is called at most five times.  The calls before the last
    one all failed on a rate limit, and the [i]-th of them was followed
    by a sleep of 10 * 2^i seconds, 10 * (2^k - 1) in all; a response
    ends the loop, and so does any other exception, and so does the
    fifth rate limit, after its own sleep of 160 seconds. *)
Theorem retry_bounded (service : nat -> outcome) :
  exists k : nat,
    k <= 5 /\
    snd (retry service 0 max_retries [])
      = List.map (fun i => 10 * 2 ^ i) (seq 0 k) /\
    fold_right Nat.add 0 (snd (retry service 0 max_retries []))
      = 10 * (2 ^ k - 1) /\
    (forall i, i < k ->
       exists msg, service i = Exception msg /\ is_rate_limit msg = true) /\
    match fst (retry service 0 max_retries []) with
    | Some text => k < 5 /\ service k = Reply text
    | None =>
        k = 5 \/
        exists msg, service k = Exception msg /\ is_rate_limit msg = false
    end.
Proof.
  destruct (retry_spec service max_retries 0 [])
    as [k [Hk [Hs [Hall Hend]]]].
  exists k. split; [exact Hk |]. split; [exact Hs |].
  split; [rewrite Hs; apply sum_delays |].
  split; [intros i Hi; apply Hall; lia | exact Hend].
Qed.

(** ** The code fence *)

Lemma append_cons (c : ascii) (a b : string) :
  String.append (String c a) b = String c (String.append a b).
Proof. reflexivity. Qed.

Lemma string_length_append (a b : string) :
  String.length (String.append a b) = String.length a + String.length b.
Proof.
  induction a as [| c a IH]; [reflexivity |].
  rewrite append_cons. cbn [String.length Nat.add]. now rewrite IH.
Qed.

Lemma prefix_append (p s : string) :
  String.prefix p (String.append p s) = true.
Proof.
  induction p as [| c p IH]; [now destruct s |].
  rewrite append_cons. cbn [String.prefix].
  destruct (ascii_dec c c); [exact IH | contradiction].
Qed.

Lemma substring_skip (p s : string) (n m : nat) :
  String.substring (String.length p + n) m (String.append p s)
  = String.substring n m s.
Proof.
  induction p as [| c p IH]; [reflexivity |].
  rewrite append_cons. cbn [String.length Nat.add String.substring].
  exact IH.
Qed.

Lemma substring_all (s : string) :
  String.substring 0 (String.length s) s = s.
Proof.
  induction s as [| c s IH]; [reflexivity |].
  cbn [String.length String.substring]. now rewrite IH.
Qed.

Lemma substring_prefix (p s : string) :
  String.substring 0 (String.length p) (String.append p s) = p.
Proof.
  induction p as [| c p IH]; [now destruct s |].
  rewrite append_cons. cbn [String.length String.substring].
  now rewrite IH.
Qed.

Lemma rstrip_fence (s : string) :
  PyStr.rstrip (String.append s "```") = String.append s "```".
Proof.
  induction s as [| c s IH]; [reflexivity |].
  rewrite append_cons. cbn [PyStr.rstrip]. rewrite IH.
  destruct s; reflexivity.
Qed.

(** A reply wrapped in the code fence of a Markdown JSON block is
    parsed as the text between the fences, whatever that text is. *)
Theorem clean_reply_fenced (body : string) :
  clean_reply (String.append "```json" (String.append body "```")) = body.
Proof.
  unfold clean_reply.
  assert (Hs : PyStr.strip (String.append "```json"
                              (String.append body "```"))
               = String.append "```json" (String.append body "```")).
  { unfold PyStr.strip.
    change (PyStr.lstrip (String.append "```json" (String.append body "```")))
      with (String.append "```json" (String.append body "```")).
    change (String.append "```json" (String.append body "```"))
      with (String.append (String.append "```json" body) "```").
    apply rstrip_fence. }
  rewrite Hs. cbv zeta. rewrite prefix_append.
  assert (Hd : drop_chars 7 (String.append "```json"
                               (String.append body "```"))
               = String.append body "```").
  { unfold drop_chars. rewrite string_length_append.
    change (String.length "```json") with 7.
    replace (7 + String.length (String.append body "```") - 7)
      with (String.length (String.append body "```")) by lia.
    rewrite <- (Nat.add_0_r 7) at 1.
    change 7 with (String.length "```json") at 1.
    rewrite substring_skip. apply substring_all. }
  rewrite Hd. unfold endswith, drop_last_chars.
  rewrite string_length_append. change (String.length "```") with 3.
  replace (String.length body + 3 - 3) with (String.length body) by lia.
  rewrite <- (Nat.add_0_r (String.length body)) at 2.
  rewrite substring_skip. cbn [String.substring].
  rewrite String.eqb_refl.
  replace (3 <=? String.length body + 3) with true
    by (symmetry; apply Nat.leb_le; lia).
  cbn [andb]. apply substring_prefix.
Qed.

(** ** The script *)

Section Script.

Variable json_loads : string -> option (list assignment).

Local Abbreviation optimize_allocation := (optimize_allocation json_loads).
Local Abbreviation run := (run json_loads).

Lemma retry_all_raise (service : nat -> outcome) :
  (forall i, i < 5 -> exists msg, service i = Exception msg) ->
  fst (retry service 0 max_retries []) = None.
Proof.
  intros Hraise.
  destruct (retry_spec service max_retries 0 [])
    as [k [Hk [_ [_ Hend]]]].
  destruct (fst (retry service 0 max_retries [])) as [text |];
    [| reflexivity].
  destruct Hend as [Hlt Hr]. destruct (Hraise k Hlt) as [msg Hmsg].
  cbn in Hr. congruence.
Qed.

(** When each of the five calls raises, whatever the exceptions, no
    assignment comes back and the script leaves the table as it was. *)
Theorem run_service_down (db : list vehicle) (service : nat -> outcome) :
  (forall i, i < 5 -> exists msg, service i = Exception msg) ->
  fst (optimize_allocation service) = [] /\ run db service = db.
Proof.
  intros Hraise. pose proof (retry_all_raise service Hraise) as Hr.
  assert (E : fst (optimize_allocation service) = []).
  { unfold AiAllocation.optimize_allocation.
    destruct (retry service 0 max_retries []) as [r slept].
    cbn in Hr. now subst r. }
  split; [exact E |].
  unfold AiAllocation.run. rewrite E. now destruct db.
Qed.

End Script.

(** ** Worked examples *)

Lemma update_db_unknown_ids_witness :
  fst (update_db demo_db stray_assignments) = demo_db /\
  snd (update_db demo_db stray_assignments)
    = List.length (List.filter executable stray_assignments).
Proof.
  apply (update_db_unknown_ids demo_db stray_assignments).
  intros a v Ha Hv. unfold stray_assignments in Ha. unfold demo_db in Hv.
  cbn [In] in Ha, Hv.
  destruct Ha as [<- | [<- | []]];
    destruct Hv as [<- | [<- | [<- | [<- | []]]]]; reflexivity.
Defined.

Lemma run_service_down_witness :
  fst (optimize_allocation no_json busy_service) = [] /\
  run no_json demo_db busy_service = demo_db.
Proof.
  apply (run_service_down no_json demo_db busy_service).
  intros i _. unfold busy_service. eauto.
Defined.

End AiProofs.
